(** * Temperature_Control: PID time-proportioning relay controller

    Shallow embedding of [titration/utils/devices/temperature_control.py].

    Numbers.  The Python attributes holding temperatures, gains and times
    are floats; they are modelled here by exact rationals ([Q]), so every
    statement below is about the idealised arithmetic of the control law
    (no rounding).  [stepCount] is a Python int and is modelled by [Z].

    Collaborators.  A method call receives, as arguments, the values its
    environment hands back during that call: the successive results of
    [time.time()] and of [sensor.get_temperature()].  What the object does
    to its collaborators is recorded in the state: the commands sent to
    the relay, the number of sensor reads, and the frames printed.
    [output_csv] (file output) and the unused [__update_timeLast] are
    left out. *)

From Stdlib Require Import QArith ZArith List Bool Lia Lqa.
Import ListNotations.
Open Scope Q_scope.

(** ** Module-level constants *)

Definition PID_DEFAULT_KP : Q := 0.09.
Definition PID_DEFAULT_TI : Q := 0.000001.
Definition PID_DEFAULT_TD : Q := 9.
Definition PID_ANTIWINDUP_KP : Q := 0.04.
Definition PID_ANTIWINDUP_TI : Q := 0.004.
Definition PID_ANTIWINDUP_TD : Q := 9.

(** ** Data *)

(** One line of the measurement table [df]: columns "time (s)",
    "temperature (C)", "gain".  The first column holds the timestamp that
    the code hands to [time.ctime]. *)
Record Row := mkRow { row_time : Q; row_temperature : Q; row_gain : Q }.

(** The attributes of a [Temperature_Control] object, followed by the
    observable history of its collaborators. *)
Record Temperature_Control := mkTC {
  printData : bool;
  controlActive : bool;
  kp : Q;
  Ti : Q;
  Td : Q;
  k : Q;
  integral : Q;
  integral_prior : Q;
  derivative : Q;
  error : Q;
  error_prior : Q;
  stepCount : Z;
  timeStep : Q;
  timeNext : Q;
  temperatureLast : Q;
  relayOn : bool;
  df : list Row;
  setPoint : Q;
  (* collaborators *)
  relay : list bool;          (* commands sent to the LED, oldest first:
                                 [true] is [relay.on()], [false] is [relay.off()] *)
  sensor_reads : nat;         (* calls of [sensor.get_temperature()] so far *)
  console : list (list Row)   (* tables printed so far, oldest first *)
}.

(** Python exceptions raised by the controller's own code: the only
    operation of the class that can fail by itself is the division of
    [__update_gains].  The collaborators (sensor, relay, clock, table)
    are taken to return normally; runs in which one of them raises are
    outside the statements below. *)
Inductive exn := ZeroDivisionError.

(** Result of a method call.  A raised exception leaves the object with
    the attribute writes made before the raise. *)
Inductive outcome :=
| Ok (s : Temperature_Control)
| Raise (e : exn) (s : Temperature_Control).

Definition state_of (o : outcome) : Temperature_Control :=
  match o with Ok s => s | Raise _ s => s end.

Definition Qlt_bool (x y : Q) : bool := negb (Qle_bool y x).

(** ** Attribute writes *)

Definition set_printData (v : bool) (s : Temperature_Control) :=
  mkTC v (controlActive s) (kp s) (Ti s) (Td s) (k s) (integral s)
       (integral_prior s) (derivative s) (error s) (error_prior s)
       (stepCount s) (timeStep s) (timeNext s) (temperatureLast s)
       (relayOn s) (df s) (setPoint s) (relay s) (sensor_reads s) (console s).

Definition set_controlActive (v : bool) (s : Temperature_Control) :=
  mkTC (printData s) v (kp s) (Ti s) (Td s) (k s) (integral s)
       (integral_prior s) (derivative s) (error s) (error_prior s)
       (stepCount s) (timeStep s) (timeNext s) (temperatureLast s)
       (relayOn s) (df s) (setPoint s) (relay s) (sensor_reads s) (console s).

Definition set_params (p i d : Q) (s : Temperature_Control) :=
  mkTC (printData s) (controlActive s) p i d (k s) (integral s)
       (integral_prior s) (derivative s) (error s) (error_prior s)
       (stepCount s) (timeStep s) (timeNext s) (temperatureLast s)
       (relayOn s) (df s) (setPoint s) (relay s) (sensor_reads s) (console s).

Definition set_k (v : Q) (s : Temperature_Control) :=
  mkTC (printData s) (controlActive s) (kp s) (Ti s) (Td s) v (integral s)
       (integral_prior s) (derivative s) (error s) (error_prior s)
       (stepCount s) (timeStep s) (timeNext s) (temperatureLast s)
       (relayOn s) (df s) (setPoint s) (relay s) (sensor_reads s) (console s).

Definition set_integral (v : Q) (s : Temperature_Control) :=
  mkTC (printData s) (controlActive s) (kp s) (Ti s) (Td s) (k s) v
       (integral_prior s) (derivative s) (error s) (error_prior s)
       (stepCount s) (timeStep s) (timeNext s) (temperatureLast s)
       (relayOn s) (df s) (setPoint s) (relay s) (sensor_reads s) (console s).

Definition set_integral_prior (v : Q) (s : Temperature_Control) :=
  mkTC (printData s) (controlActive s) (kp s) (Ti s) (Td s) (k s) (integral s)
       v (derivative s) (error s) (error_prior s)
       (stepCount s) (timeStep s) (timeNext s) (temperatureLast s)
       (relayOn s) (df s) (setPoint s) (relay s) (sensor_reads s) (console s).

Definition set_derivative (v : Q) (s : Temperature_Control) :=
  mkTC (printData s) (controlActive s) (kp s) (Ti s) (Td s) (k s) (integral s)
       (integral_prior s) v (error s) (error_prior s)
       (stepCount s) (timeStep s) (timeNext s) (temperatureLast s)
       (relayOn s) (df s) (setPoint s) (relay s) (sensor_reads s) (console s).

Definition set_error (v : Q) (s : Temperature_Control) :=
  mkTC (printData s) (controlActive s) (kp s) (Ti s) (Td s) (k s) (integral s)
       (integral_prior s) (derivative s) v (error_prior s)
       (stepCount s) (timeStep s) (timeNext s) (temperatureLast s)
       (relayOn s) (df s) (setPoint s) (relay s) (sensor_reads s) (console s).

Definition set_error_prior (v : Q) (s : Temperature_Control) :=
  mkTC (printData s) (controlActive s) (kp s) (Ti s) (Td s) (k s) (integral s)
       (integral_prior s) (derivative s) (error s) v
       (stepCount s) (timeStep s) (timeNext s) (temperatureLast s)
       (relayOn s) (df s) (setPoint s) (relay s) (sensor_reads s) (console s).

Definition set_stepCount (v : Z) (s : Temperature_Control) :=
  mkTC (printData s) (controlActive s) (kp s) (Ti s) (Td s) (k s) (integral s)
       (integral_prior s) (derivative s) (error s) (error_prior s)
       v (timeStep s) (timeNext s) (temperatureLast s)
       (relayOn s) (df s) (setPoint s) (relay s) (sensor_reads s) (console s).

Definition set_timeNext (v : Q) (s : Temperature_Control) :=
  mkTC (printData s) (controlActive s) (kp s) (Ti s) (Td s) (k s) (integral s)
       (integral_prior s) (derivative s) (error s) (error_prior s)
       (stepCount s) (timeStep s) v (temperatureLast s)
       (relayOn s) (df s) (setPoint s) (relay s) (sensor_reads s) (console s).

Definition set_temperatureLast (v : Q) (s : Temperature_Control) :=
  mkTC (printData s) (controlActive s) (kp s) (Ti s) (Td s) (k s) (integral s)
       (integral_prior s) (derivative s) (error s) (error_prior s)
       (stepCount s) (timeStep s) (timeNext s) v
       (relayOn s) (df s) (setPoint s) (relay s) (sensor_reads s) (console s).

Definition set_relayOn (v : bool) (s : Temperature_Control) :=
  mkTC (printData s) (controlActive s) (kp s) (Ti s) (Td s) (k s) (integral s)
       (integral_prior s) (derivative s) (error s) (error_prior s)
       (stepCount s) (timeStep s) (timeNext s) (temperatureLast s)
       v (df s) (setPoint s) (relay s) (sensor_reads s) (console s).

Definition set_df (v : list Row) (s : Temperature_Control) :=
  mkTC (printData s) (controlActive s) (kp s) (Ti s) (Td s) (k s) (integral s)
       (integral_prior s) (derivative s) (error s) (error_prior s)
       (stepCount s) (timeStep s) (timeNext s) (temperatureLast s)
       (relayOn s) v (setPoint s) (relay s) (sensor_reads s) (console s).

(** ** Collaborator calls *)

(** [self.relay.on()] / [self.relay.off()]. *)
Definition relay_command (b : bool) (s : Temperature_Control) :=
  mkTC (printData s) (controlActive s) (kp s) (Ti s) (Td s) (k s) (integral s)
       (integral_prior s) (derivative s) (error s) (error_prior s)
       (stepCount s) (timeStep s) (timeNext s) (temperatureLast s)
       (relayOn s) (df s) (setPoint s) (relay s ++ [b]) (sensor_reads s)
       (console s).

(** One call of [self.sensor.get_temperature()]. *)
Definition sensor_read (s : Temperature_Control) :=
  mkTC (printData s) (controlActive s) (kp s) (Ti s) (Td s) (k s) (integral s)
       (integral_prior s) (derivative s) (error s) (error_prior s)
       (stepCount s) (timeStep s) (timeNext s) (temperatureLast s)
       (relayOn s) (df s) (setPoint s) (relay s) (S (sensor_reads s))
       (console s).

(** [print(self.df)]. *)
Definition print_df (s : Temperature_Control) :=
  mkTC (printData s) (controlActive s) (kp s) (Ti s) (Td s) (k s) (integral s)
       (integral_prior s) (derivative s) (error s) (error_prior s)
       (stepCount s) (timeStep s) (timeNext s) (temperatureLast s)
       (relayOn s) (df s) (setPoint s) (relay s) (sensor_reads s)
       (console s ++ [df s]).

(** ** Private methods *)

Definition update_timeNext (stepTime : Q) (s : Temperature_Control) :=
  set_timeNext stepTime s.

Definition set_controlparam_antiwindup (s : Temperature_Control) :=
  set_params PID_ANTIWINDUP_KP PID_ANTIWINDUP_TI PID_ANTIWINDUP_TD s.

Definition set_controlparam_default (s : Temperature_Control) :=
  set_params PID_DEFAULT_KP PID_DEFAULT_TI PID_DEFAULT_TD s.

(** [__update_gains]: the division raises when [timeStep] is zero, after
    [error] and [integral] have been written. *)
Definition update_gains (temperature : Q) (s : Temperature_Control) : outcome :=
  let s := set_error (setPoint s - temperature) s in
  let s := set_integral (integral_prior s + error s * timeStep s) s in
  if Qeq_bool (timeStep s) 0 then Raise ZeroDivisionError s
  else
    let s := set_derivative ((error s - error_prior s) / timeStep s) s in
    Ok (set_k (kp s * (error s + Ti s * integral s + Td s * derivative s)) s).

Definition update_priors (s : Temperature_Control) :=
  let s := set_error_prior (error s) s in
  set_integral_prior (integral s) s.

Definition set_integral_zero (s : Temperature_Control) :=
  set_integral 0 s.

Definition set_relayState (boolean : bool) (s : Temperature_Control) :=
  relay_command boolean (set_relayOn boolean s).

(** ** Public methods *)

(** The block under the source comment "anti-windup" of [update]. *)
Definition anti_windup (s : Temperature_Control) :=
  if (stepCount s <? 250)%Z then set_integral_zero s
  else if (stepCount s =? 250)%Z then set_controlparam_antiwindup s
  else s.

(** First half of the relay-off branch of [update]: read the sensor, keep
    the value, run the anti-windup block, update the PID gain. *)
Definition sample_gain (temperature : Q) (s : Temperature_Control) : outcome :=
  let s := sensor_read s in
  let s := set_temperatureLast temperature s in
  let s := anti_windup s in
  update_gains temperature s.

(** Second half of the relay-off branch of [update], from the source
    comment "Check if relay needs to be turned on" to the end of the
    branch; [timeSet] is the clock value read when the next action time is
    set, [timeNow] the one read on entry of [update]. *)
Definition switch_relay (timeNow timeSet temperature : Q)
                        (s : Temperature_Control) :=
  let s :=
    if Qlt_bool temperature (setPoint s) then
      if Qle_bool (k s) 0 then
        let s := set_k 0 s in
        update_timeNext (timeSet + timeStep s) s
      else if Qlt_bool (k s) 1 then
        let s := set_relayState true s in
        update_timeNext (timeSet + timeStep s * k s) s
      else
        let s := set_k 1 s in
        let s := set_relayState true s in
        update_timeNext (timeSet + timeStep s) s
    else
      let s := set_k 0 s in
      let s := set_relayState false s in
      let s := update_timeNext (timeSet + timeStep s) s in
      update_priors s in
  let s := set_df (df s ++ [mkRow timeNow temperature (k s)]) s in
  if printData s then print_df s else s.

(** [update]: [timeNow] is the clock value read on entry, [timeSet] the
    clock value read when the next action time is set, [temperature] the
    sensor value (read only in the relay-off branch). *)
Definition update (timeNow timeSet temperature : Q)
                  (s : Temperature_Control) : outcome :=
  if negb (controlActive s) then Ok s
  else if Qle_bool (timeNext s) timeNow then
    if relayOn s then
      let s := set_relayState false s in
      let s := set_stepCount (stepCount s + 1) s in
      let s := update_priors s in
      Ok (update_timeNext (timeSet + timeStep s * (1 - k s)) s)
    else
      match sample_gain temperature s with
      | Raise e s => Raise e s
      | Ok s => Ok (switch_relay timeNow timeSet temperature s)
      end
  else Ok s.

Definition enable_print (s : Temperature_Control) := set_printData true s.
Definition disable_print (s : Temperature_Control) := set_printData false s.

(** [at_temperature]: [r1] and [r2] are the values of the first and of
    the second sensor call; [and] evaluates its second operand, and so
    makes the second call, only when the first comparison holds. *)
Definition at_temperature (r1 r2 : Q) (s : Temperature_Control)
  : bool * Temperature_Control :=
  let s := sensor_read s in
  if Qle_bool 29.5 r1 then
    let s := sensor_read s in
    if Qle_bool r2 30.5 then (true, s) else (false, s)
  else (false, s).

Definition get_last_temperature (s : Temperature_Control) : Q :=
  temperatureLast s.

Definition activate (now : Q) (s : Temperature_Control) :=
  let s := set_controlActive true s in
  let s := set_controlparam_default s in
  set_timeNext now s.

Definition deactivate (s : Temperature_Control) :=
  let s := set_controlActive false s in
  set_relayState false s.

(** The object right after construction: the class-level defaults;
    [t0] is the value of [time.time()] when the class body ran. *)
Definition init (t0 : Q) : Temperature_Control :=
  mkTC false false PID_DEFAULT_KP PID_DEFAULT_TI PID_DEFAULT_TD
       0 0 0 0 0 0 0%Z 1 t0 0 false [] 30 [] 0%nat [].

(** ** Call sequences *)

(** A call of a public method, with the values the clock and the sensor
    return during it. *)
Inductive call :=
| Update (timeNow timeSet temperature : Q)
| Activate (now : Q)
| Deactivate
| EnablePrint
| DisablePrint
| AtTemperature (r1 r2 : Q).

Definition exec (c : call) (s : Temperature_Control) : outcome :=
  match c with
  | Update timeNow timeSet temperature => update timeNow timeSet temperature s
  | Activate now => Ok (activate now s)
  | Deactivate => Ok (deactivate s)
  | EnablePrint => Ok (enable_print s)
  | DisablePrint => Ok (disable_print s)
  | AtTemperature r1 r2 => Ok (snd (at_temperature r1 r2 s))
  end.

(** The object after a sequence of calls; it lives on, with the writes
    made so far, when a call raises. *)
Fixpoint exec_all (cs : list call) (s : Temperature_Control)
  : Temperature_Control :=
  match cs with
  | [] => s
  | c :: cs => exec_all cs (state_of (exec c s))
  end.

(** ** Gain-parameter presets *)

Definition params (s : Temperature_Control) : Q * Q * Q := (kp s, Ti s, Td s).

Definition default_params : Q * Q * Q :=
  (PID_DEFAULT_KP, PID_DEFAULT_TI, PID_DEFAULT_TD).

Definition antiwindup_params : Q * Q * Q :=
  (PID_ANTIWINDUP_KP, PID_ANTIWINDUP_TI, PID_ANTIWINDUP_TD).

(** ** Vocabulary of the statements *)

(** A tick is idle when the controller is disabled or the next action
    time lies ahead of the clock value read on entry. *)
Definition idle (timeNow : Q) (s : Temperature_Control) : Prop :=
  controlActive s = false \/ timeNow < timeNext s.

(** The ticks of a list, as calls of [update]. *)
Definition ticks (l : list (Q * Q * Q)) : list call :=
  map (fun x => Update (fst (fst x)) (snd (fst x)) (snd x)) l.

(** What [sample_gain] leaves untouched. *)
Definition same_outside_pid (s s' : Temperature_Control) : Prop :=
  printData s' = printData s /\ controlActive s' = controlActive s /\
  error_prior s' = error_prior s /\ integral_prior s' = integral_prior s /\
  stepCount s' = stepCount s /\ timeStep s' = timeStep s /\
  timeNext s' = timeNext s /\ relayOn s' = relayOn s /\ df s' = df s /\
  setPoint s' = setPoint s /\ relay s' = relay s /\ console s' = console s.

(** The object after activation and one full heating cycle at 25
    degrees: relay off, [stepCount = 1], both priors equal to 5. *)
Definition after_first_cycle : Temperature_Control :=
  exec_all [Activate 0; Update 0 0 25; Update 1 1 25] (init 0).

(** An assignment to the public attribute [timeStep] by the owner of the
    object (the class only gives it the default 1). *)
Definition set_timeStep (v : Q) (s : Temperature_Control) :=
  mkTC (printData s) (controlActive s) (kp s) (Ti s) (Td s) (k s) (integral s)
       (integral_prior s) (derivative s) (error s) (error_prior s)
       (stepCount s) v (timeNext s) (temperatureLast s)
       (relayOn s) (df s) (setPoint s) (relay s) (sensor_reads s) (console s).

(** The gain stored while the relay is on is a duty cycle. *)
Definition gain_fits_relay (s : Temperature_Control) : Prop :=
  relayOn s = true -> 0 < k s /\ k s <= 1.

(** The preset the step count calls for: the default one below 250
    steps, the anti-windup one from 250 steps on. *)
Definition parameters_for (n : Z) : Q * Q * Q :=
  if (n <? 250)%Z then default_params else antiwindup_params.

(** A call sequence in which [activate] is never called once the step
    count has reached 250. *)
Fixpoint activate_only_in_warmup (cs : list call) (s : Temperature_Control)
  : bool :=
  match cs with
  | [] => true
  | c :: cs =>
      match c with
      | Activate _ => (stepCount s <? 250)%Z
      | _ => true
      end && activate_only_in_warmup cs (state_of (exec c s))
  end.

(** [n] heating cycles at a constant 25 degrees: a relay-off tick at the
    even time [t], the tick closing the on-phase at [t + 1], and so on. *)
Fixpoint heat_cycles (n : nat) (t : Z) : list call :=
  match n with
  | O => []
  | S n =>
      Update (inject_Z t) (inject_Z t) 25
      :: Update (inject_Z (t + 1)) (inject_Z (t + 1)) 25
      :: heat_cycles n (t + 2)
  end.

(** The agreement between step count and active preset that [update]
    maintains. *)
Definition preset_follows_steps (s : Temperature_Control) : Prop :=
  ((stepCount s < 250)%Z -> params s = default_params) /\
  (stepCount s = 250%Z -> relayOn s = true -> params s = antiwindup_params) /\
  ((250 < stepCount s)%Z -> params s = antiwindup_params).

(** What a relay-off tick that returns does whatever branch it takes:
    [s] is the object before the tick, [s'] the object after it. *)
Definition sampled (timeNow temperature : Q) (s s' : Temperature_Control)
  : Prop :=
  stepCount s' = stepCount s /\ timeStep s' = timeStep s /\
  setPoint s' = setPoint s /\ controlActive s' = controlActive s /\
  printData s' = printData s /\
  temperatureLast s' = temperature /\
  sensor_reads s' = S (sensor_reads s) /\
  df s' = df s ++ [mkRow timeNow temperature (k s')] /\
  console s' = (if printData s then console s ++ [df s'] else console s).

(** The four branches of a relay-off tick that returns; [sg] is the
    object when the gain has just been computed. *)
Definition relay_branch (timeSet temperature : Q)
                        (s sg s' : Temperature_Control) : Prop :=
  (setPoint s <= temperature /\ k s' = 0 /\ relayOn s' = false /\
   relay s' = relay s ++ [false] /\ timeNext s' = timeSet + timeStep s /\
   error_prior s' = error sg /\ integral_prior s' = integral sg) \/
  (temperature < setPoint s /\ k sg <= 0 /\ k s' = 0 /\ relayOn s' = false /\
   relay s' = relay s /\ timeNext s' = timeSet + timeStep s /\
   error_prior s' = error_prior s /\ integral_prior s' = integral_prior s) \/
  (temperature < setPoint s /\ 0 < k sg /\ k sg < 1 /\ k s' = k sg /\
   relayOn s' = true /\ relay s' = relay s ++ [true] /\
   timeNext s' = timeSet + timeStep s * k sg /\
   error_prior s' = error_prior s /\ integral_prior s' = integral_prior s) \/
  (temperature < setPoint s /\ 1 <= k sg /\ k s' = 1 /\
   relayOn s' = true /\ relay s' = relay s ++ [true] /\
   timeNext s' = timeSet + timeStep s /\
   error_prior s' = error_prior s /\ integral_prior s' = integral_prior s).

(** Two [on] commands in a row somewhere in a relay log. *)
Definition on_twice_in_a_row (l : list bool) : Prop :=
  exists l1 l2, l = l1 ++ true :: true :: l2.

(** A gain that can be used as the fraction of [timeStep] during which
    the relay is on. *)
Definition duty_cycle (x : Q) : Prop := 0 <= x /\ x <= 1.

Definition is_at_temperature (c : call) : bool :=
  match c with AtTemperature _ _ => true | _ => false end.

Definition is_deactivate (c : call) : bool :=
  match c with Deactivate => true | _ => false end.

(** Number of [on] commands in a relay log. *)
Definition on_commands (l : list bool) : Z :=
  Z.of_nat (count_occ bool_dec l true).

(** The control law of [__update_gains] with the gain parameters [p]. *)
Definition gain_with (p : Q * Q * Q) (e i d : Q) : Q :=
  fst (fst p) * (e + snd (fst p) * i + snd p * d).

(** * Properties *)

(** ** Comparisons *)

Lemma Qlt_bool_iff (x y : Q) : Qlt_bool x y = true <-> x < y.
Proof.
  unfold Qlt_bool. rewrite negb_true_iff, <- not_true_iff_false, Qle_bool_iff.
  split; [apply Qnot_le_lt | apply Qlt_not_le].
Qed.

Lemma Qlt_bool_false_iff (x y : Q) : Qlt_bool x y = false <-> y <= x.
Proof.
  unfold Qlt_bool. rewrite negb_false_iff. apply Qle_bool_iff.
Qed.

Lemma Qle_bool_false_iff (x y : Q) : Qle_bool x y = false <-> y < x.
Proof.
  rewrite <- not_true_iff_false, Qle_bool_iff.
  split; [apply Qnot_le_lt | apply Qlt_not_le].
Qed.

Lemma Qeq_bool_false_iff (x y : Q) : Qeq_bool x y = false <-> ~ x == y.
Proof.
  rewrite <- not_true_iff_false, Qeq_bool_iff. reflexivity.
Qed.

(** ** Ticks that do nothing *)

Lemma update_idle (timeNow timeSet temperature : Q) (s : Temperature_Control) :
  idle timeNow s -> update timeNow timeSet temperature s = Ok s.
Proof.
  intros [Hoff | Hearly]; unfold update.
  - rewrite Hoff. reflexivity.
  - destruct (controlActive s); [simpl | reflexivity].
    apply Qle_bool_false_iff in Hearly. rewrite Hearly. reflexivity.
Qed.

(** C6. Any number of calls of [update] made while the controller is
    disabled, or with a clock value below [timeNext], returns normally
    each time and leaves the object exactly as it was: no attribute
    changes, no relay command is sent, the sensor is not read, and no
    line is added to the measurement table. *)
Theorem update_idle_any_number_of_times
    (s : Temperature_Control) (l : list (Q * Q * Q)) :
  Forall (fun x => idle (fst (fst x)) s) l ->
  exec_all (ticks l) s = s /\
  Forall (fun c => exec c s = Ok s) (ticks l).
Proof.
  induction 1 as [| [[tn ts] te] l Hx Hl [IHs IHc]]; simpl.
  - split; [reflexivity | constructor].
  - simpl in Hx. rewrite (update_idle tn ts te s Hx). simpl.
    split; [exact IHs |].
    constructor; [apply update_idle; exact Hx | exact IHc].
Qed.

Lemma update_idle_any_number_of_times_witness :
  let s := activate 10 (init 0) in
  exec_all (ticks [(3, 3, 25); (5, 6, 20); (9.5, 9.5, 31)]) s = s /\
  Forall (fun c => exec c s = Ok s) (ticks [(3, 3, 25); (5, 6, 20); (9.5, 9.5, 31)]).
Proof.
  apply (update_idle_any_number_of_times (activate 10 (init 0))
           [(3, 3, 25); (5, 6, 20); (9.5, 9.5, 31)]).
  repeat constructor; right; reflexivity.
Defined.

(** ** Closing the on-phase *)

(** C5. A due tick that finds the relay on sends [off] to the relay
    whatever the gain is, adds one to [stepCount], commits the priors
    ([error_prior = error], [integral_prior = integral]) and sets
    [timeNext] to the clock value read at that moment plus
    [timeStep * (1 - k)]; it neither reads the sensor nor adds a line to
    the measurement table, and it leaves [error], [integral] and [k] as
    they were. *)
Theorem update_relay_on_closes_cycle
    (timeNow timeSet temperature : Q) (s : Temperature_Control) :
  controlActive s = true ->
  relayOn s = true ->
  timeNext s <= timeNow ->
  exists s',
    update timeNow timeSet temperature s = Ok s' /\
    relayOn s' = false /\
    relay s' = relay s ++ [false] /\
    stepCount s' = (stepCount s + 1)%Z /\
    error s' = error s /\ integral s' = integral s /\ k s' = k s /\
    error_prior s' = error s' /\
    integral_prior s' = integral s' /\
    timeNext s' = timeSet + timeStep s * (1 - k s) /\
    sensor_reads s' = sensor_reads s /\
    temperatureLast s' = temperatureLast s /\
    df s' = df s /\
    console s' = console s.
Proof.
  intros Hact Hon Hdue. unfold update.
  rewrite Hact, Hon. apply Qle_bool_iff in Hdue. rewrite Hdue. simpl.
  eexists. split; [reflexivity |]. simpl. repeat split; reflexivity.
Qed.

Lemma update_relay_on_closes_cycle_witness :
  let s := exec_all [Activate 0; Update 0 0 25] (init 0) in
  exists s',
    update 1 1.25 25 s = Ok s' /\
    relayOn s' = false /\
    relay s' = relay s ++ [false] /\
    stepCount s' = (stepCount s + 1)%Z /\
    error s' = error s /\ integral s' = integral s /\ k s' = k s /\
    error_prior s' = error s' /\
    integral_prior s' = integral s' /\
    timeNext s' = 1.25 + timeStep s * (1 - k s) /\
    sensor_reads s' = sensor_reads s /\
    temperatureLast s' = temperatureLast s /\
    df s' = df s /\
    console s' = console s.
Proof.
  apply (update_relay_on_closes_cycle 1 1.25 25
           (exec_all [Activate 0; Update 0 0 25] (init 0)));
    reflexivity || (vm_compute; discriminate).
Defined.

(** ** The PID gain computation *)

Lemma sample_gain_ok (temperature : Q) (s : Temperature_Control) :
  ~ timeStep s == 0 ->
  exists sg,
    sample_gain temperature s = Ok sg /\
    error sg = setPoint s - temperature /\
    integral sg = integral_prior s + (setPoint s - temperature) * timeStep s /\
    derivative sg = (setPoint s - temperature - error_prior s) / timeStep s /\
    k sg = kp sg * (error sg + Ti sg * integral sg + Td sg * derivative sg) /\
    params sg = (if (stepCount s =? 250)%Z then antiwindup_params else params s) /\
    temperatureLast sg = temperature /\
    sensor_reads sg = S (sensor_reads s) /\
    same_outside_pid s sg.
Proof.
  intros Hts. apply Qeq_bool_false_iff in Hts.
  unfold sample_gain, anti_windup, update_gains. simpl.
  destruct (stepCount s <? 250)%Z eqn:Hlt; simpl.
  - rewrite Hts. eexists. split; [reflexivity |]. simpl.
    assert (Hne : (stepCount s =? 250)%Z = false) by lia. rewrite Hne.
    unfold same_outside_pid. simpl. repeat split; reflexivity.
  - destruct (stepCount s =? 250)%Z eqn:Heq; simpl; rewrite Hts;
      (eexists; split; [reflexivity |]); unfold same_outside_pid; simpl;
      repeat split; reflexivity.
Qed.

Lemma update_relay_off_due
    (timeNow timeSet temperature : Q) (s sg : Temperature_Control) :
  controlActive s = true ->
  relayOn s = false ->
  timeNext s <= timeNow ->
  sample_gain temperature s = Ok sg ->
  update timeNow timeSet temperature s =
  Ok (switch_relay timeNow timeSet temperature sg).
Proof.
  intros Hact Hoff Hdue Hsg. unfold update.
  rewrite Hact, Hoff, Hsg. apply Qle_bool_iff in Hdue. rewrite Hdue.
  reflexivity.
Qed.

(** ** The relay-off branch at or above the set point *)

(** C3. A due tick that finds the relay off and samples a temperature at
    or above [setPoint] (with a non-zero [timeStep]) ends with [k = 0],
    sends [off] to the relay, commits the priors to the values of [error]
    and [integral] it has just computed, sets [timeNext] to the clock
    value read at that moment plus [timeStep], and logs the sample with
    gain 0. *)
Theorem update_at_or_above_set_point
    (timeNow timeSet temperature : Q) (s : Temperature_Control) :
  controlActive s = true ->
  relayOn s = false ->
  timeNext s <= timeNow ->
  ~ timeStep s == 0 ->
  setPoint s <= temperature ->
  exists s',
    update timeNow timeSet temperature s = Ok s' /\
    k s' = 0 /\
    relayOn s' = false /\
    relay s' = relay s ++ [false] /\
    error s' = setPoint s - temperature /\
    integral s' = integral_prior s + (setPoint s - temperature) * timeStep s /\
    error_prior s' = error s' /\
    integral_prior s' = integral s' /\
    timeNext s' = timeSet + timeStep s /\
    stepCount s' = stepCount s /\
    df s' = df s ++ [mkRow timeNow temperature 0].
Proof.
  intros Hact Hoff Hdue Hts Hhot.
  destruct (sample_gain_ok temperature s Hts)
    as (sg & Hsg & He & Hi & _ & _ & _ & _ & _ & Hsame).
  destruct Hsame as (_ & _ & _ & _ & Hstep & Hstp & _ & _ & Hdf & Hsp & Hrel & _).
  rewrite (update_relay_off_due _ _ _ _ _ Hact Hoff Hdue Hsg).
  eexists. split; [reflexivity |].
  unfold switch_relay.
  assert (Hb : Qlt_bool temperature (setPoint sg) = false)
    by (apply Qlt_bool_false_iff; rewrite Hsp; exact Hhot).
  rewrite Hb. simpl.
  destruct (printData sg); simpl; rewrite ?He, ?Hi, ?Hstp, ?Hrel, ?Hdf, ?Hstep;
    repeat split; reflexivity.
Qed.

Lemma update_at_or_above_set_point_witness :
  let s := activate 0 (init 0) in
  exists s',
    update 2 2.5 30.5 s = Ok s' /\
    k s' = 0 /\
    relayOn s' = false /\
    relay s' = relay s ++ [false] /\
    error s' = setPoint s - 30.5 /\
    integral s' = integral_prior s + (setPoint s - 30.5) * timeStep s /\
    error_prior s' = error s' /\
    integral_prior s' = integral s' /\
    timeNext s' = 2.5 + timeStep s /\
    stepCount s' = stepCount s /\
    df s' = df s ++ [mkRow 2 30.5 0].
Proof.
  apply (update_at_or_above_set_point 2 2.5 30.5 (activate 0 (init 0)));
    reflexivity || (vm_compute; discriminate).
Defined.

Lemma sample_gain_raise (temperature : Q) (s : Temperature_Control) :
  timeStep s == 0 ->
  exists sr,
    sample_gain temperature s = Raise ZeroDivisionError sr /\
    error sr = setPoint s - temperature /\
    integral sr = integral_prior s + (setPoint s - temperature) * timeStep s /\
    derivative sr = derivative s /\ k sr = k s /\
    same_outside_pid s sr.
Proof.
  intros Hts. apply Qeq_bool_iff in Hts.
  unfold sample_gain, anti_windup, update_gains. simpl.
  destruct (stepCount s <? 250)%Z; [| destruct (stepCount s =? 250)%Z];
    simpl; rewrite Hts; (eexists; split; [reflexivity |]);
    unfold same_outside_pid; simpl; repeat split; reflexivity.
Qed.

Lemma sample_gain_ok_inv (temperature : Q) (s sg : Temperature_Control) :
  sample_gain temperature s = Ok sg ->
  ~ timeStep s == 0 /\ same_outside_pid s sg /\
  sensor_reads sg = S (sensor_reads s).
Proof.
  intros Hsg. destruct (Qeq_dec (timeStep s) 0) as [Hz | Hnz].
  - destruct (sample_gain_raise temperature s Hz) as (sr & Hr & _).
    rewrite Hr in Hsg. discriminate.
  - destruct (sample_gain_ok temperature s Hnz)
      as (sg' & Hsg' & _ & _ & _ & _ & _ & _ & Hreads & Hsame).
    rewrite Hsg' in Hsg. injection Hsg as <-. auto.
Qed.

(** ** The relay-off branch below the set point with a non-positive gain *)

(** C4 (as amended). A due tick that finds the relay off, samples a
    temperature below [setPoint] and computes a gain [k <= 0] stores
    [k = 0], sends no command to the relay (which stays off, with
    [relayOn] false), sets [timeNext] to the clock value read at that
    moment plus [timeStep], and leaves [error_prior] and [integral_prior]
    as they were. *)
Theorem update_gain_nonpositive
    (timeNow timeSet temperature : Q) (s sg : Temperature_Control) :
  controlActive s = true ->
  relayOn s = false ->
  timeNext s <= timeNow ->
  temperature < setPoint s ->
  sample_gain temperature s = Ok sg ->
  k sg <= 0 ->
  exists s',
    update timeNow timeSet temperature s = Ok s' /\
    k s' = 0 /\
    relayOn s' = false /\
    relay s' = relay s /\
    timeNext s' = timeSet + timeStep s /\
    error_prior s' = error_prior s /\
    integral_prior s' = integral_prior s /\
    stepCount s' = stepCount s /\
    df s' = df s ++ [mkRow timeNow temperature 0].
Proof.
  intros Hact Hoff Hdue Hcold Hsg Hk.
  destruct (sample_gain_ok_inv _ _ _ Hsg) as (_ & Hsame & _).
  destruct Hsame
    as (_ & _ & Hep & Hip & Hstep & Hstp & _ & Hron & Hdf & Hsp & Hrel & _).
  rewrite (update_relay_off_due _ _ _ _ _ Hact Hoff Hdue Hsg).
  eexists. split; [reflexivity |].
  unfold switch_relay.
  assert (Hb : Qlt_bool temperature (setPoint sg) = true)
    by (apply Qlt_bool_iff; rewrite Hsp; exact Hcold).
  apply Qle_bool_iff in Hk. rewrite Hb, Hk. simpl.
  destruct (printData sg); simpl;
    rewrite ?Hep, ?Hip, ?Hstp, ?Hrel, ?Hdf, ?Hstep, ?Hron, ?Hoff;
    repeat split; reflexivity.
Qed.

Lemma update_gain_nonpositive_witness :
  let s := after_first_cycle in
  let sg := state_of (sample_gain 29.9 s) in
  sample_gain 29.9 s = Ok sg /\ k sg <= 0 /\
  exists s',
    update 1 1.5 29.9 s = Ok s' /\
    k s' = 0 /\
    relayOn s' = false /\
    relay s' = relay s /\
    timeNext s' = 1.5 + timeStep s /\
    error_prior s' = error_prior s /\
    integral_prior s' = integral_prior s /\
    stepCount s' = stepCount s /\
    df s' = df s ++ [mkRow 1 29.9 0].
Proof.
  split; [vm_compute; reflexivity |]. split; [vm_compute; discriminate |].
  apply (update_gain_nonpositive 1 1.5 29.9 after_first_cycle
           (state_of (sample_gain 29.9 after_first_cycle)));
    vm_compute; (reflexivity || discriminate).
Defined.

(** C4, counterexample.  At this input the tick takes the branch of the
    claim (relay off, 29.9 below the set point 30, computed gain
    negative), and the list of commands sent to the relay is unchanged:
    the relay is not commanded off. *)
Lemma update_gain_nonpositive_sends_no_command :
  controlActive after_first_cycle = true /\
  relayOn after_first_cycle = false /\
  timeNext after_first_cycle <= 1 /\
  29.9 < setPoint after_first_cycle /\
  exists sg s',
    sample_gain 29.9 after_first_cycle = Ok sg /\ k sg <= 0 /\
    update 1 1.5 29.9 after_first_cycle = Ok s' /\
    relay s' = relay after_first_cycle /\
    relay s' <> relay after_first_cycle ++ [false].
Proof.
  repeat split; try (vm_compute; discriminate).
  eexists. eexists.
  split; [vm_compute; reflexivity |].
  split; [vm_compute; discriminate |].
  split; [vm_compute; reflexivity |].
  split; [reflexivity | vm_compute; discriminate].
Qed.

(** ** The integral term during the first 250 steps *)

(** In the relay-off branch the anti-windup block runs before
    [update_gains], which assigns [integral] again from [integral_prior]:
    whatever the step count, the gain is computed with the accumulated
    integral. *)
Lemma sample_gain_integral (temperature : Q) (s sg : Temperature_Control) :
  sample_gain temperature s = Ok sg ->
  integral sg = integral_prior s + (setPoint s - temperature) * timeStep s /\
  k sg = kp sg * (error sg + Ti sg * integral sg + Td sg * derivative sg).
Proof.
  intros Hsg. destruct (sample_gain_ok_inv _ _ _ Hsg) as (Hnz & _).
  destruct (sample_gain_ok temperature s Hnz) as (sg' & Hsg' & _ & Hi & _ & Hk & _).
  rewrite Hsg' in Hsg. injection Hsg as <-. split; assumption.
Qed.

(** C1, the code at a failing input.  After one heating cycle at 25
    degrees the step count is 1 and [integral_prior] is 5.  The next
    relay-off tick, again at 25 degrees, stores [integral = 10] and the
    gain 0.4500009, which contains the integral term: without it the gain
    would be 0.45.  The tick that closes this on-phase then commits
    [integral_prior = 10]. *)
Theorem warmup_tick_keeps_integral_term :
  let s := after_first_cycle in
  (stepCount s < 250)%Z /\ controlActive s = true /\ relayOn s = false /\
  timeNext s <= 1 /\ integral_prior s == 5 /\
  exists s' s'',
    update 1 1 25 s = Ok s' /\
    integral s' == 10 /\
    k s' == 0.4500009 /\
    kp s' * (error s' + Ti s' * 0 + Td s' * derivative s') == 0.45 /\
    ~ k s' == kp s' * (error s' + Ti s' * 0 + Td s' * derivative s') /\
    update 2 2 25 s' = Ok s'' /\
    integral_prior s'' == 10 /\
    ~ integral_prior s'' == 0.
Proof.
  cbv zeta.
  split; [vm_compute; reflexivity |].
  split; [vm_compute; reflexivity |].
  split; [vm_compute; reflexivity |].
  split; [vm_compute; discriminate |].
  split; [vm_compute; reflexivity |].
  eexists. eexists.
  split; [vm_compute; reflexivity |].
  split; [vm_compute; reflexivity |].
  split; [vm_compute; reflexivity |].
  split; [vm_compute; reflexivity |].
  split; [vm_compute; discriminate |].
  split; [vm_compute; reflexivity |].
  split; [vm_compute; reflexivity | vm_compute; discriminate].
Qed.

(** ** Scenario: 25 degrees against a set point of 30, first tick *)

(** C7 (as amended). With [setPoint = 30], a sample of 25 degrees, the
    default gain parameters, [stepCount = 0], zero priors and
    [timeStep = 1], a due relay-off tick computes the gain 4.50000045,
    stores it clamped to 1, switches the relay on, and sets [timeNext]
    exactly one full [timeStep] after the clock value read at that
    moment: the on-phase lasts 1, not less. *)
Theorem update_scenario_25_of_30
    (timeNow timeSet temperature : Q) (s : Temperature_Control) :
  controlActive s = true ->
  relayOn s = false ->
  timeNext s <= timeNow ->
  setPoint s == 30 ->
  temperature == 25 ->
  params s = default_params ->
  stepCount s = 0%Z ->
  error_prior s == 0 ->
  integral_prior s == 0 ->
  timeStep s == 1 ->
  exists sg s',
    sample_gain temperature s = Ok sg /\ k sg == 4.50000045 /\
    update timeNow timeSet temperature s = Ok s' /\
    relayOn s' = true /\
    relay s' = relay s ++ [true] /\
    k s' = 1 /\
    timeNext s' = timeSet + timeStep s /\
    timeNext s' - timeSet == 1 /\
    ~ timeNext s' - timeSet < 1.
Proof.
  intros Hact Hoff Hdue Hsp Htemp Hpar Hstep Hep Hip Hts.
  assert (Hnz : ~ timeStep s == 0) by (rewrite Hts; discriminate).
  destruct (sample_gain_ok temperature s Hnz)
    as (sg & Hsg & He & Hi & Hd & Hk & Hp & _ & _ & Hsame).
  destruct Hsame as (_ & _ & _ & _ & _ & Hstp & _ & Hron & _ & Hspg & Hrel & _).
  rewrite Hstep in Hp. simpl in Hp. rewrite Hpar in Hp.
  injection Hp as Hkp HTi HTd.
  assert (Hkval : k sg == 4.50000045).
  { rewrite Hk, Hkp, HTi, HTd, He, Hi, Hd, Hsp, Htemp, Hep, Hip, Hts.
    reflexivity. }
  exists sg. eexists. split; [exact Hsg |]. split; [exact Hkval |].
  rewrite (update_relay_off_due _ _ _ _ _ Hact Hoff Hdue Hsg).
  split; [reflexivity |].
  unfold switch_relay.
  assert (Hb1 : Qlt_bool temperature (setPoint sg) = true)
    by (apply Qlt_bool_iff; rewrite Hspg, Hsp, Htemp; reflexivity).
  assert (Hb2 : Qle_bool (k sg) 0 = false)
    by (apply Qle_bool_false_iff; rewrite Hkval; reflexivity).
  assert (Hb3 : Qlt_bool (k sg) 1 = false)
    by (apply Qlt_bool_false_iff; rewrite Hkval; discriminate).
  rewrite Hb1, Hb2, Hb3. simpl.
  assert (Hone : timeSet + timeStep s - timeSet == 1) by (rewrite Hts; ring).
  destruct (printData sg); simpl; rewrite ?Hstp, ?Hrel, ?Hron;
    repeat split; try reflexivity; try exact Hone;
    rewrite Hone; discriminate.
Qed.

Lemma update_scenario_25_of_30_witness :
  let s := activate 7 (init 0) in
  exists sg s',
    sample_gain 25 s = Ok sg /\ k sg == 4.50000045 /\
    update 7 7.5 25 s = Ok s' /\
    relayOn s' = true /\
    relay s' = relay s ++ [true] /\
    k s' = 1 /\
    timeNext s' = 7.5 + timeStep s /\
    timeNext s' - 7.5 == 1 /\
    ~ timeNext s' - 7.5 < 1.
Proof.
  apply (update_scenario_25_of_30 7 7.5 25 (activate 7 (init 0)));
    reflexivity || (vm_compute; discriminate).
Defined.

(** C7, counterexample.  On the object just activated (set point 30,
    default gains, step count 0, zero priors, time step 1) the first tick
    at 25 degrees turns the relay on and schedules the next action a full
    time step later: the wait is 1, which is not strictly below 1. *)
Lemma scenario_25_of_30_wait_is_full_step :
  let s := activate 0 (init 0) in
  setPoint s == 30 /\ params s = default_params /\ stepCount s = 0%Z /\
  error_prior s == 0 /\ integral_prior s == 0 /\ timeStep s == 1 /\
  exists s',
    update 0 0 25 s = Ok s' /\
    relayOn s' = true /\
    timeNext s' - 0 == 1 /\
    ~ (0 < timeNext s' - 0 /\ timeNext s' - 0 < 1).
Proof.
  repeat split; try reflexivity.
  eexists. split; [vm_compute; reflexivity |].
  split; [reflexivity |]. split; [reflexivity |].
  intros [_ H]. vm_compute in H. discriminate.
Qed.

(** ** Division by [timeStep] *)

(** C8 (as amended). [update_gains] raises [ZeroDivisionError] exactly
    when [timeStep] is zero, after it has written [error] and [integral]
    and before it writes [derivative] and [k]; for every other
    [timeStep], negative ones included, it returns with the four values
    of the control law. *)
Theorem update_gains_raises_iff_time_step_zero
    (temperature : Q) (s : Temperature_Control) :
  (timeStep s == 0 ->
   exists sr,
     update_gains temperature s = Raise ZeroDivisionError sr /\
     error sr = setPoint s - temperature /\
     integral sr = integral_prior s + error sr * timeStep s /\
     derivative sr = derivative s /\ k sr = k s) /\
  (~ timeStep s == 0 ->
   exists sg,
     update_gains temperature s = Ok sg /\
     error sg = setPoint s - temperature /\
     integral sg = integral_prior s + error sg * timeStep s /\
     derivative sg = (error sg - error_prior s) / timeStep s /\
     k sg = kp s * (error sg + Ti s * integral sg + Td s * derivative sg)).
Proof.
  unfold update_gains. simpl. split; intros Hts.
  - apply Qeq_bool_iff in Hts. rewrite Hts.
    eexists. split; [reflexivity |]. simpl. repeat split; reflexivity.
  - apply Qeq_bool_false_iff in Hts. rewrite Hts.
    eexists. split; [reflexivity |]. simpl. repeat split; reflexivity.
Qed.

Lemma update_gains_raises_iff_time_step_zero_witness :
  (exists sr,
     update_gains 25 (set_timeStep 0 (init 0)) = Raise ZeroDivisionError sr /\
     error sr = 30 - 25 /\
     integral sr = 0 + error sr * 0 /\
     derivative sr = 0 /\ k sr = 0) /\
  (exists sg,
     update_gains 25 (set_timeStep (-2) (init 0)) = Ok sg /\
     error sg = 30 - 25 /\
     integral sg = 0 + error sg * (-2) /\
     derivative sg = (error sg - 0) / (-2) /\
     k sg = PID_DEFAULT_KP *
            (error sg + PID_DEFAULT_TI * integral sg
             + PID_DEFAULT_TD * derivative sg)).
Proof.
  split.
  - apply (proj1 (update_gains_raises_iff_time_step_zero 25
                    (set_timeStep 0 (init 0)))).
    reflexivity.
  - apply (proj2 (update_gains_raises_iff_time_step_zero 25
                    (set_timeStep (-2) (init 0)))).
    vm_compute. discriminate.
Defined.

(** C8, counterexample.  With [timeStep = -2], which is not above zero,
    the gain computation returns normally (error 5, integral -10,
    derivative -2.5, gain about -1.575) instead of raising. *)
Lemma update_gains_negative_time_step_returns :
  let s := set_timeStep (-2) (init 0) in
  timeStep s <= 0 /\
  exists sg,
    update_gains 25 s = Ok sg /\
    error sg == 5 /\ integral sg == -10 /\ derivative sg == -2.5 /\
    k sg == -1.5750009.
Proof.
  split; [vm_compute; discriminate |].
  eexists. split; [vm_compute; reflexivity |].
  repeat split; vm_compute; reflexivity.
Qed.

(** ** [at_temperature] *)

(** C10 (as amended). [at_temperature] answers [True] exactly when the
    first sensor value is at least 29.5 and the second one at most 30.5;
    for a sensor that returns the same value twice this is membership in
    the closed interval from 29.5 to 30.5.  The answer does not depend on
    the object, so not on [setPoint].  The sensor is read once for the
    lower bound and, only when that comparison holds, a second time for
    the upper bound: the count of sensor reads grows by 2 in that case
    (so whenever the answer is [True]) and by 1 otherwise; no attribute,
    relay command, table line or console output changes.  Two different
    readings can each pass their own comparison while neither lies in
    the interval. *)
Theorem at_temperature_reads :
  (forall r1 r2 s,
     (fst (at_temperature r1 r2 s) = true <-> 29.5 <= r1 /\ r2 <= 30.5) /\
     sensor_reads (snd (at_temperature r1 r2 s))
       = (sensor_reads s + (if Qle_bool 29.5 r1 then 2 else 1))%nat /\
     (fst (at_temperature r1 r2 s) = true ->
      sensor_reads (snd (at_temperature r1 r2 s)) = (sensor_reads s + 2)%nat) /\
     (r1 < 29.5 ->
      sensor_reads (snd (at_temperature r1 r2 s)) = (sensor_reads s + 1)%nat) /\
     snd (at_temperature r1 r2 s) =
       (if Qle_bool 29.5 r1 then sensor_read (sensor_read s)
        else sensor_read s) /\
     same_outside_pid s (snd (at_temperature r1 r2 s)) /\
     params (snd (at_temperature r1 r2 s)) = params s /\
     k (snd (at_temperature r1 r2 s)) = k s /\
     temperatureLast (snd (at_temperature r1 r2 s)) = temperatureLast s) /\
  (forall t s,
     fst (at_temperature t t s) = true <-> 29.5 <= t /\ t <= 30.5) /\
  (forall r1 r2 s s',
     fst (at_temperature r1 r2 s) = fst (at_temperature r1 r2 s')) /\
  (forall s,
     fst (at_temperature 31 29 s) = true /\
     ~ (29.5 <= 31 /\ 31 <= 30.5) /\ ~ (29.5 <= 29 /\ 29 <= 30.5)).
Proof.
  assert (Hiff : forall r1 r2 s,
             fst (at_temperature r1 r2 s) = true <-> 29.5 <= r1 /\ r2 <= 30.5).
  { intros r1 r2 s. unfold at_temperature.
    destruct (Qle_bool 29.5 r1) eqn:H1; [destruct (Qle_bool r2 30.5) eqn:H2 |];
      simpl; rewrite <- !Qle_bool_iff, ?H1, ?H2; intuition congruence. }
  split; [| split; [| split]].
  - intros r1 r2 s. split; [apply Hiff |].
    split; [| split; [| split; [| split]]].
    + unfold at_temperature.
      destruct (Qle_bool 29.5 r1); [destruct (Qle_bool r2 30.5) |]; simpl; lia.
    + intros Htrue. apply Hiff in Htrue as [H1 _].
      apply Qle_bool_iff in H1. unfold at_temperature. rewrite H1.
      destruct (Qle_bool r2 30.5); simpl; lia.
    + intros Hlow. apply Qle_bool_false_iff in Hlow.
      unfold at_temperature. rewrite Hlow. simpl. lia.
    + unfold at_temperature.
      destruct (Qle_bool 29.5 r1); [destruct (Qle_bool r2 30.5) |]; reflexivity.
    + unfold at_temperature, same_outside_pid.
      destruct (Qle_bool 29.5 r1); [destruct (Qle_bool r2 30.5) |]; simpl;
        repeat split; reflexivity.
  - intros t s. apply Hiff.
  - intros r1 r2 s s'. unfold at_temperature.
    destruct (Qle_bool 29.5 r1); [destruct (Qle_bool r2 30.5) |]; reflexivity.
  - intros s. split; [reflexivity |].
    split; intros [H1 H2]; vm_compute in H1, H2; congruence.
Qed.

Lemma at_temperature_reads_witness :
  sensor_reads (snd (at_temperature 30 30.2 (init 0))) = 2%nat /\
  sensor_reads (snd (at_temperature 28 30 (init 0))) = 1%nat.
Proof.
  split.
  - apply (proj1 (proj2 (proj2 (proj1 at_temperature_reads 30 30.2 (init 0))))).
    reflexivity.
  - apply (proj1 (proj2 (proj2 (proj2 (proj1 at_temperature_reads 28 30 (init 0)))))).
    reflexivity.
Defined.

(** C10, counterexample.  With a first reading of 29, below the lower
    bound, the answer is [False] after a single sensor read: the second
    read, for the upper bound, does not take place. *)
Lemma at_temperature_reads_once_below_lower_bound :
  fst (at_temperature 29 29 (init 0)) = false /\
  sensor_reads (init 0) = 0%nat /\
  sensor_reads (snd (at_temperature 29 29 (init 0))) = 1%nat /\
  sensor_reads (snd (at_temperature 29 29 (init 0))) <> 2%nat.
Proof.
  repeat split; try reflexivity. simpl. discriminate.
Qed.

(** ** The three ways through [update] *)

Lemma update_cases (timeNow timeSet temperature : Q) (s : Temperature_Control) :
  (idle timeNow s /\ update timeNow timeSet temperature s = Ok s) \/
  (controlActive s = true /\ timeNext s <= timeNow /\ relayOn s = true /\
   update timeNow timeSet temperature s =
   Ok (update_timeNext (timeSet + timeStep s * (1 - k s))
         (update_priors
            (set_stepCount (stepCount s + 1) (set_relayState false s))))) \/
  (controlActive s = true /\ timeNext s <= timeNow /\ relayOn s = false /\
   update timeNow timeSet temperature s =
   match sample_gain temperature s with
   | Raise e sr => Raise e sr
   | Ok sg => Ok (switch_relay timeNow timeSet temperature sg)
   end).
Proof.
  unfold update, idle.
  destruct (controlActive s); simpl; [| left; auto].
  destruct (Qle_bool (timeNext s) timeNow) eqn:Hdue.
  - apply Qle_bool_iff in Hdue.
    destruct (relayOn s); [right; left | right; right]; auto.
  - apply Qle_bool_false_iff in Hdue. left; auto.
Qed.

(** What the first half of the relay-off branch does to the attributes
    the invariants speak about, whether or not the division raises. *)
Lemma sample_gain_frame (temperature : Q) (s : Temperature_Control) :
  let sg := state_of (sample_gain temperature s) in
  params sg = (if (stepCount s =? 250)%Z then antiwindup_params else params s) /\
  stepCount sg = stepCount s /\ relayOn sg = relayOn s /\
  timeStep sg = timeStep s /\ controlActive sg = controlActive s.
Proof.
  unfold sample_gain, anti_windup, update_gains. simpl.
  destruct (stepCount s <? 250)%Z eqn:Hlt;
    [assert (Hne : (stepCount s =? 250)%Z = false) by lia; rewrite Hne
    | destruct (stepCount s =? 250)%Z];
    simpl; destruct (Qeq_bool (timeStep s) 0); simpl; repeat split; reflexivity.
Qed.

Lemma switch_relay_frame (timeNow timeSet temperature : Q)
                         (sg : Temperature_Control) :
  let s' := switch_relay timeNow timeSet temperature sg in
  params s' = params sg /\ stepCount s' = stepCount sg /\
  timeStep s' = timeStep sg /\ controlActive s' = controlActive sg.
Proof.
  unfold switch_relay.
  destruct (Qlt_bool temperature (setPoint sg));
    [destruct (Qle_bool (k sg) 0); [| destruct (Qlt_bool (k sg) 1)] |];
    simpl; destruct (printData sg); simpl; repeat split; reflexivity.
Qed.

(** The relay is switched on only with a gain in (0, 1), kept as it is,
    or with a gain of at least 1, stored as 1. *)
Lemma switch_relay_gain (timeNow timeSet temperature : Q)
                        (sg : Temperature_Control) :
  relayOn sg = false ->
  gain_fits_relay (switch_relay timeNow timeSet temperature sg).
Proof.
  intros Hoff. unfold switch_relay, gain_fits_relay.
  destruct (Qlt_bool temperature (setPoint sg));
    [destruct (Qle_bool (k sg) 0) eqn:H0;
     [| destruct (Qlt_bool (k sg) 1) eqn:H1] |];
    simpl; destruct (printData sg); simpl; intros Hon;
    try (rewrite Hoff in Hon; discriminate); try discriminate.
  - apply Qle_bool_false_iff in H0. apply Qlt_bool_iff in H1.
    split; [exact H0 | apply Qlt_le_weak; exact H1].
  - apply Qle_bool_false_iff in H0. apply Qlt_bool_iff in H1.
    split; [exact H0 | apply Qlt_le_weak; exact H1].
  - split; [reflexivity | discriminate].
  - split; [reflexivity | discriminate].
Qed.

Lemma exec_timeStep (c : call) (s : Temperature_Control) :
  timeStep (state_of (exec c s)) = timeStep s.
Proof.
  destruct c as [tn ts te | t | | | | r1 r2]; simpl; try reflexivity.
  - destruct (update_cases tn ts te s)
      as [[_ ->] | [(_ & _ & _ & ->) | (_ & _ & _ & ->)]]; try reflexivity.
    pose proof (sample_gain_frame te s) as (_ & _ & _ & Hts & _).
    destruct (sample_gain te s) as [sg | e sr]; simpl in *; [| exact Hts].
    pose proof (switch_relay_frame tn ts te sg) as (_ & _ & Hts' & _).
    simpl in Hts'. congruence.
  - unfold at_temperature.
    destruct (Qle_bool 29.5 r1); [destruct (Qle_bool r2 30.5) |]; reflexivity.
Qed.

Lemma exec_all_timeStep (cs : list call) (s : Temperature_Control) :
  timeStep (exec_all cs s) = timeStep s.
Proof.
  revert s. induction cs as [| c cs IH]; intros s; simpl; [reflexivity |].
  rewrite IH. apply exec_timeStep.
Qed.

Lemma exec_gain_fits_relay (c : call) (s : Temperature_Control) :
  gain_fits_relay s -> gain_fits_relay (state_of (exec c s)).
Proof.
  intros Hs.
  destruct c as [tn ts te | t | | | | r1 r2]; simpl; try exact Hs.
  - destruct (update_cases tn ts te s)
      as [[_ ->] | [(_ & _ & _ & ->) | (_ & _ & Hoff & ->)]].
    + exact Hs.
    + intros Hon. simpl in Hon. discriminate.
    + pose proof (sample_gain_frame te s) as (_ & _ & Hron & _).
      destruct (sample_gain te s) as [sg | e sr]; simpl in *.
      * apply switch_relay_gain. congruence.
      * intros Hon. congruence.
  - intros Hon. simpl in Hon. discriminate.
  - unfold at_temperature.
    destruct (Qle_bool 29.5 r1); [destruct (Qle_bool r2 30.5) |]; exact Hs.
Qed.

Lemma exec_all_gain_fits_relay (cs : list call) (s : Temperature_Control) :
  gain_fits_relay s -> gain_fits_relay (exec_all cs s).
Proof.
  revert s. induction cs as [| c cs IH]; intros s Hs; simpl; [exact Hs |].
  apply IH, exec_gain_fits_relay, Hs.
Qed.

(** ** The gain while the relay is on *)

(** C9. After any sequence of calls on a fresh object, whenever
    [relayOn] is true the stored gain satisfies [0 < k <= 1].  Hence the
    tick that closes the on-phase adds a wait [timeStep * (1 - k)] that
    is not negative, and the next action time it sets is not before the
    clock value read at that moment (nor before the one read on entry,
    when the clock does not run backwards). *)
Theorem relay_on_gain_is_duty_cycle (t0 : Q) (cs : list call) :
  let s := exec_all cs (init t0) in
  (relayOn s = true -> 0 < k s /\ k s <= 1) /\
  (forall timeNow timeSet temperature,
     controlActive s = true ->
     relayOn s = true ->
     timeNext s <= timeNow ->
     exists s',
       update timeNow timeSet temperature s = Ok s' /\
       timeNext s' = timeSet + timeStep s * (1 - k s) /\
       0 <= timeStep s * (1 - k s) /\
       timeSet <= timeNext s' /\
       (timeNow <= timeSet -> timeNow <= timeNext s')).
Proof.
  intros s.
  assert (Hfit : gain_fits_relay s).
  { apply exec_all_gain_fits_relay. intros Hon. discriminate. }
  assert (Hts : timeStep s = 1) by apply exec_all_timeStep.
  split; [exact Hfit |].
  intros tn ts te Hact Hon Hdue.
  destruct (update_cases tn ts te s)
    as [[Hidle _] | [(_ & _ & _ & Hup) | (_ & _ & Hoff & _)]].
  - destruct Hidle as [Hoff | Hearly]; [congruence |].
    exfalso. apply (Qlt_not_le _ _ Hearly), Hdue.
  - destruct (Hfit Hon) as [Hpos Hle].
    eexists. split; [exact Hup |]. simpl. rewrite Hts.
    split; [reflexivity |]. repeat split; intros; lra.
  - congruence.
Qed.

Lemma relay_on_gain_is_duty_cycle_witness :
  let s := exec_all [Activate 0; Update 0 0 25; Update 1 1 25; Update 1 1 25]
             (init 0) in
  (0 < k s /\ k s <= 1) /\
  exists s',
    update 2 2.5 25 s = Ok s' /\
    timeNext s' = 2.5 + timeStep s * (1 - k s) /\
    0 <= timeStep s * (1 - k s) /\
    2.5 <= timeNext s' /\
    (2 <= 2.5 -> 2 <= timeNext s').
Proof.
  split.
  - apply (proj1 (relay_on_gain_is_duty_cycle 0
                    [Activate 0; Update 0 0 25; Update 1 1 25; Update 1 1 25])).
    reflexivity.
  - apply (proj2 (relay_on_gain_is_duty_cycle 0
                    [Activate 0; Update 0 0 25; Update 1 1 25; Update 1 1 25])
             2 2.5 25);
      reflexivity || (vm_compute; discriminate).
Defined.

(** ** The anti-windup switch *)

Lemma update_relay_off_params
    (timeNow timeSet temperature : Q) (s : Temperature_Control) :
  controlActive s = true -> timeNext s <= timeNow -> relayOn s = false ->
  let s' := state_of (update timeNow timeSet temperature s) in
  params s' = (if (stepCount s =? 250)%Z then antiwindup_params else params s) /\
  stepCount s' = stepCount s.
Proof.
  intros Hact Hdue Hoff.
  destruct (update_cases timeNow timeSet temperature s)
    as [[Hidle _] | [(_ & _ & Hon & _) | (_ & _ & _ & Hup)]].
  - destruct Hidle as [H | H]; [congruence |].
    exfalso. apply (Qlt_not_le _ _ H), Hdue.
  - congruence.
  - simpl. rewrite Hup.
    pose proof (sample_gain_frame temperature s) as (Hp & Hn & _).
    destruct (sample_gain temperature s) as [sg | e sr]; simpl in *.
    + pose proof (switch_relay_frame timeNow timeSet temperature sg)
        as (Hp' & Hn' & _).
      simpl in Hp', Hn'. split; congruence.
    + split; assumption.
Qed.

Lemma update_preset_follows_steps
    (timeNow timeSet temperature : Q) (s : Temperature_Control) :
  preset_follows_steps s ->
  preset_follows_steps (state_of (update timeNow timeSet temperature s)).
Proof.
  intros (Hlow & Hmid & Hhigh).
  destruct (update_cases timeNow timeSet temperature s)
    as [[_ ->] | [(_ & _ & Hon & ->) | (Hact & Hdue & Hoff & _)]].
  - repeat split; assumption.
  - unfold preset_follows_steps. simpl.
    change (kp s, Ti s, Td s) with (params s).
    split; [intros; apply Hlow; lia |].
    split; [intros; discriminate |].
    intros Hn. destruct (Z.eq_dec (stepCount s) 250) as [E | NE];
      [apply Hmid; assumption | apply Hhigh; lia].
  - destruct (update_relay_off_params _ timeSet temperature _ Hact Hdue Hoff)
      as [Hp Hn].
    unfold preset_follows_steps. rewrite Hp, Hn.
    destruct (stepCount s =? 250)%Z eqn:E.
    + repeat split; intros; try reflexivity; lia.
    + repeat split; intros; [apply Hlow; lia | lia | apply Hhigh; lia].
Qed.

Lemma exec_preset_follows_steps (c : call) (s : Temperature_Control) :
  activate_only_in_warmup [c] s = true ->
  preset_follows_steps s ->
  preset_follows_steps (state_of (exec c s)).
Proof.
  intros Hc Hs.
  destruct c as [tn ts te | t | | | | r1 r2]; simpl; try exact Hs.
  - apply update_preset_follows_steps, Hs.
  - simpl in Hc. rewrite andb_true_r in Hc. apply Z.ltb_lt in Hc.
    unfold preset_follows_steps. simpl. repeat split; intros; try reflexivity; lia.
  - destruct Hs as (Hlow & Hmid & Hhigh).
    unfold preset_follows_steps. simpl.
    repeat split; intros; [apply Hlow; assumption | discriminate
                          | apply Hhigh; assumption].
  - unfold at_temperature.
    destruct (Qle_bool 29.5 r1); [destruct (Qle_bool r2 30.5) |]; exact Hs.
Qed.

Lemma exec_all_preset_follows_steps (cs : list call) (s : Temperature_Control) :
  activate_only_in_warmup cs s = true ->
  preset_follows_steps s ->
  preset_follows_steps (exec_all cs s).
Proof.
  revert s. induction cs as [| c cs IH]; intros s Hcs Hs; simpl; [exact Hs |].
  simpl in Hcs. apply andb_true_iff in Hcs as [Hc Hcs].
  apply IH; [exact Hcs |].
  apply exec_preset_follows_steps; [| exact Hs].
  simpl. rewrite Hc. reflexivity.
Qed.

(** No call other than [activate] leaves the anti-windup preset. *)
Lemma exec_keeps_antiwindup (c : call) (s : Temperature_Control) :
  (forall t, c <> Activate t) ->
  params s = antiwindup_params ->
  params (state_of (exec c s)) = antiwindup_params.
Proof.
  intros Hc Hs.
  destruct c as [tn ts te | t | | | | r1 r2]; simpl; try exact Hs.
  - destruct (update_cases tn ts te s)
      as [[_ ->] | [(_ & _ & _ & ->) | (Hact & Hdue & Hoff & _)]];
      try exact Hs.
    destruct (update_relay_off_params _ ts te _ Hact Hdue Hoff) as [Hp _].
    simpl in Hp. rewrite Hp.
    destruct (stepCount s =? 250)%Z; [reflexivity | exact Hs].
  - exfalso. apply (Hc t). reflexivity.
  - unfold at_temperature.
    destruct (Qle_bool 29.5 r1); [destruct (Qle_bool r2 30.5) |]; exact Hs.
Qed.

Lemma exec_all_app (cs more : list call) (s : Temperature_Control) :
  exec_all (cs ++ more) s = exec_all more (exec_all cs s).
Proof.
  revert s. induction cs as [| c cs IH]; intros s; simpl; [reflexivity |].
  apply IH.
Qed.

Lemma activate_only_in_warmup_app
    (cs more : list call) (s : Temperature_Control) :
  activate_only_in_warmup (cs ++ more) s =
  activate_only_in_warmup cs s && activate_only_in_warmup more (exec_all cs s).
Proof.
  revert s. induction cs as [| c cs IH]; intros s; simpl; [reflexivity |].
  rewrite IH, andb_assoc. reflexivity.
Qed.

Lemma presets_differ : default_params <> antiwindup_params.
Proof. discriminate. Qed.

Lemma exec_all_keeps_antiwindup (cs : list call) (s : Temperature_Control) :
  preset_follows_steps s ->
  params s = antiwindup_params ->
  activate_only_in_warmup cs s = true ->
  params (exec_all cs s) = antiwindup_params.
Proof.
  revert s. induction cs as [| c cs IH]; intros s Hinv Hs Hcs; simpl;
    [exact Hs |].
  simpl in Hcs. apply andb_true_iff in Hcs as [Hc Hcs].
  apply IH; [| | exact Hcs].
  - apply exec_preset_follows_steps; [simpl; rewrite Hc; reflexivity | exact Hinv].
  - apply exec_keeps_antiwindup; [| exact Hs].
    intros t ->. apply Z.ltb_lt in Hc.
    destruct Hinv as (Hlow & _). apply presets_differ.
    rewrite <- (Hlow Hc). exact Hs.
Qed.

(** X18. Take any sequence of calls on a fresh object in which
    [activate] is not called once the step count has reached 250.  At
    every point of it the active gain parameters are the default preset
    while the step count is below 250 and the anti-windup preset once it
    is above 250; every due relay-off tick returns from the gain
    computation with the preset its step count calls for (default below
    250, anti-windup from 250 on) and with a gain [k] computed by the
    control law from exactly that preset, the switch being made by the
    relay-off tick that finds the step count equal to 250, before it
    computes the gain; and once the anti-windup preset is active it
    stays active for the rest of the sequence, no call other than
    [activate] ever leaving it. *)
Theorem preset_switch_without_late_activate
    (t0 : Q) (cs more : list call) :
  activate_only_in_warmup (cs ++ more) (init t0) = true ->
  let s := exec_all cs (init t0) in
  ((stepCount s < 250)%Z -> params s = default_params) /\
  ((250 < stepCount s)%Z -> params s = antiwindup_params) /\
  (forall timeNow timeSet temperature,
     controlActive s = true ->
     relayOn s = false ->
     timeNext s <= timeNow ->
     exists sg,
       sample_gain temperature s = Ok sg /\
       params sg = parameters_for (stepCount s) /\
       k sg = gain_with (parameters_for (stepCount s))
                (error sg) (integral sg) (derivative sg) /\
       update timeNow timeSet temperature s
         = Ok (switch_relay timeNow timeSet temperature sg) /\
       params (switch_relay timeNow timeSet temperature sg)
         = parameters_for (stepCount s)) /\
  (params s = antiwindup_params ->
   params (exec_all (cs ++ more) (init t0)) = antiwindup_params) /\
  (forall c,
     params s = antiwindup_params ->
     (forall t, c <> Activate t) ->
     params (state_of (exec c s)) = antiwindup_params).
Proof.
  intros Hall s.
  rewrite activate_only_in_warmup_app in Hall.
  apply andb_true_iff in Hall as [Hcs Hmore].
  assert (Hinv : preset_follows_steps s).
  { apply exec_all_preset_follows_steps; [exact Hcs |].
    unfold preset_follows_steps. simpl.
    repeat split; intros; try reflexivity; discriminate. }
  assert (Hts : timeStep s = 1) by apply exec_all_timeStep.
  pose proof Hinv as (Hlow & Hmid & Hhigh).
  split; [exact Hlow |]. split; [exact Hhigh |].
  split; [| split].
  - intros tn ts te Hact Hoff Hdue.
    assert (Hfor : (if (stepCount s =? 250)%Z then antiwindup_params
                    else params s) = parameters_for (stepCount s)).
    { unfold parameters_for.
      destruct (stepCount s =? 250)%Z eqn:E;
        destruct (stepCount s <? 250)%Z eqn:L; try reflexivity; try lia.
      - apply Hlow. lia.
      - apply Hhigh. lia. }
    assert (Hnz : ~ timeStep s == 0) by (rewrite Hts; discriminate).
    destruct (sample_gain_ok te s Hnz)
      as (sg & Hsg & _ & _ & _ & Hk & Hp & _).
    rewrite Hfor in Hp.
    exists sg. split; [exact Hsg |]. split; [exact Hp |].
    split; [rewrite <- Hp; exact Hk |].
    split; [apply update_relay_off_due; assumption |].
    pose proof (switch_relay_frame tn ts te sg) as (Hp' & _).
    simpl in Hp'. rewrite Hp'. exact Hp.
  - intros Hs. rewrite exec_all_app.
    apply exec_all_keeps_antiwindup; assumption.
  - intros c Hs Hc. apply exec_keeps_antiwindup; assumption.
Qed.

Lemma preset_switch_without_late_activate_witness :
  let before := Activate 0 :: heat_cycles 250 0 in
  let s := exec_all before (init 0) in
  stepCount s = 250%Z /\ params s = default_params /\
  exists sg,
    sample_gain 25 s = Ok sg /\
    params sg = parameters_for (stepCount s) /\
    k sg = gain_with (parameters_for (stepCount s))
             (error sg) (integral sg) (derivative sg) /\
    update 500 500 25 s = Ok (switch_relay 500 500 25 sg) /\
    params (switch_relay 500 500 25 sg) = parameters_for (stepCount s).
Proof.
  split; [vm_compute; reflexivity |]. split; [vm_compute; reflexivity |].
  assert (H : activate_only_in_warmup
                ((Activate 0 :: heat_cycles 250 0) ++ []) (init 0) = true)
    by (vm_compute; reflexivity).
  apply (proj1 (proj2 (proj2
           (preset_switch_without_late_activate 0
              (Activate 0 :: heat_cycles 250 0) [] H))) 500 500 25);
    vm_compute; (reflexivity || discriminate).
Defined.

(** C2, the code at a failing input.  After 251 heating cycles the step
    count is 251 and the anti-windup preset is active.  A further
    [activate] puts the default preset back and leaves the step count at
    251; the next relay-off tick, at a step count of at least 250,
    computes its gain with the default preset (0.4501134 here), not with
    the anti-windup one (which would give 0.4016), and the default
    preset stays. *)
Lemma late_activate_reverts_preset :
  let s := exec_all (Activate 0 :: heat_cycles 251 0) (init 0) in
  let s2 := activate 600 s in
  stepCount s = 251%Z /\ params s = antiwindup_params /\
  stepCount s2 = 251%Z /\ params s2 = default_params /\
  relayOn s2 = false /\ timeNext s2 <= 600 /\
  exists s3,
    update 600 600 25 s2 = Ok s3 /\
    (250 <= stepCount s3)%Z /\
    params s3 = default_params /\
    params s3 <> antiwindup_params /\
    k s3 == gain_with default_params (error s3) (integral s3) (derivative s3) /\
    k s3 == 0.4501134 /\
    gain_with antiwindup_params (error s3) (integral s3) (derivative s3)
      == 0.4016 /\
    ~ k s3 == gain_with antiwindup_params
                (error s3) (integral s3) (derivative s3).
Proof.
  cbv zeta.
  split; [vm_compute; reflexivity |]. split; [vm_compute; reflexivity |].
  split; [vm_compute; reflexivity |]. split; [vm_compute; reflexivity |].
  split; [vm_compute; reflexivity |]. split; [vm_compute; discriminate |].
  eexists. split; [vm_compute; reflexivity |].
  split; [vm_compute; discriminate |].
  split; [vm_compute; reflexivity |].
  split; [vm_compute; discriminate |].
  split; [vm_compute; reflexivity |].
  split; [vm_compute; reflexivity |].
  split; [vm_compute; reflexivity |].
  vm_compute. discriminate.
Qed.

(** * Further properties of the controller *)

(** ** One relay-off tick, branch by branch *)

Lemma switch_relay_effects
    (timeNow timeSet temperature : Q) (s sg : Temperature_Control) :
  relayOn s = false ->
  sample_gain temperature s = Ok sg ->
  let s' := switch_relay timeNow timeSet temperature sg in
  sampled timeNow temperature s s' /\
  relay_branch timeSet temperature s sg s' /\
  error s' = error sg /\ integral s' = integral sg /\
  derivative s' = derivative sg /\ params s' = params sg.
Proof.
  intros Hoff Hsg.
  destruct (sample_gain_ok_inv _ _ _ Hsg) as (Hnz & _ & _).
  destruct (sample_gain_ok temperature s Hnz)
    as (sg' & Hsg' & _ & _ & _ & _ & _ & Htl & Hreads & Hsame).
  rewrite Hsg' in Hsg. injection Hsg as ->.
  destruct Hsame as (Hpd & Hca & Hep & Hip & Hstep & Hstp & _ & Hron & Hdf
                     & Hsp & Hrel & Hcon).
  unfold switch_relay, sampled, relay_branch.
  destruct (Qlt_bool temperature (setPoint sg)) eqn:Hcold;
    [apply Qlt_bool_iff in Hcold;
     destruct (Qle_bool (k sg) 0) eqn:H0;
     [apply Qle_bool_iff in H0
     | apply Qle_bool_false_iff in H0;
       destruct (Qlt_bool (k sg) 1) eqn:H1;
       [apply Qlt_bool_iff in H1 | apply Qlt_bool_false_iff in H1]]
    | apply Qlt_bool_false_iff in Hcold];
    rewrite Hsp in Hcold; simpl; rewrite <- Hpd;
    destruct (printData sg) eqn:Hp; simpl;
    rewrite ?Hp, ?Hstep, ?Hstp, ?Hsp, ?Hca, ?Htl, ?Hreads, ?Hdf, ?Hcon, ?Hrel,
            ?Hep, ?Hip, ?Hron, ?Hoff;
    (split; [repeat split; reflexivity |]);
    (split; [| repeat split; reflexivity]).
  1,2: right; left; repeat split; (reflexivity || assumption).
  1,2: right; right; left; repeat split; (reflexivity || assumption).
  1,2: right; right; right; repeat split; (reflexivity || assumption).
  1,2: left; repeat split; (reflexivity || assumption).
Qed.

Lemma sample_gain_sensor (temperature : Q) (s : Temperature_Control) :
  let sg := state_of (sample_gain temperature s) in
  temperatureLast sg = temperature /\ sensor_reads sg = S (sensor_reads s) /\
  same_outside_pid s sg.
Proof.
  destruct (Qeq_dec (timeStep s) 0) as [Hz | Hnz].
  - destruct (sample_gain_raise temperature s Hz) as (sr & Hr & _ & _ & _ & _ & Hsame).
    rewrite Hr. simpl. split; [| split; [| exact Hsame]].
    + revert Hr. unfold sample_gain, anti_windup, update_gains. simpl.
      destruct (stepCount s <? 250)%Z; [| destruct (stepCount s =? 250)%Z];
        simpl; destruct (Qeq_bool (timeStep s) 0); intros Hr;
        try discriminate; injection Hr as <-; reflexivity.
    + revert Hr. unfold sample_gain, anti_windup, update_gains. simpl.
      destruct (stepCount s <? 250)%Z; [| destruct (stepCount s =? 250)%Z];
        simpl; destruct (Qeq_bool (timeStep s) 0); intros Hr;
        try discriminate; injection Hr as <-; reflexivity.
  - destruct (sample_gain_ok temperature s Hnz)
      as (sg & Hsg & _ & _ & _ & _ & _ & Htl & Hreads & Hsame).
    rewrite Hsg. simpl. auto.
Qed.

(** The four ways through [update], with the outcome of each. *)
Lemma update_effects (timeNow timeSet temperature : Q) (s : Temperature_Control) :
  (idle timeNow s /\ update timeNow timeSet temperature s = Ok s) \/
  (controlActive s = true /\ timeNext s <= timeNow /\ relayOn s = true /\
   update timeNow timeSet temperature s =
   Ok (update_timeNext (timeSet + timeStep s * (1 - k s))
         (update_priors
            (set_stepCount (stepCount s + 1) (set_relayState false s))))) \/
  (controlActive s = true /\ timeNext s <= timeNow /\ relayOn s = false /\
   timeStep s == 0 /\
   exists sr,
     sample_gain temperature s = Raise ZeroDivisionError sr /\
     update timeNow timeSet temperature s = Raise ZeroDivisionError sr) \/
  (controlActive s = true /\ timeNext s <= timeNow /\ relayOn s = false /\
   ~ timeStep s == 0 /\
   exists sg,
     sample_gain temperature s = Ok sg /\
     update timeNow timeSet temperature s =
     Ok (switch_relay timeNow timeSet temperature sg)).
Proof.
  destruct (update_cases timeNow timeSet temperature s)
    as [H | [H | (Hact & Hdue & Hoff & Hup)]]; [left; exact H | right; left; exact H |].
  right; right.
  destruct (Qeq_dec (timeStep s) 0) as [Hz | Hnz].
  - left. destruct (sample_gain_raise temperature s Hz) as (sr & Hr & _).
    rewrite Hr in Hup. repeat split; try assumption. exists sr. auto.
  - right. destruct (sample_gain_ok temperature s Hnz) as (sg & Hsg & _).
    rewrite Hsg in Hup. repeat split; try assumption. exists sg. auto.
Qed.

(** ** The relay log *)

Lemma exec_relayOn_last (c : call) (s : Temperature_Control) :
  relayOn s = last (relay s) false ->
  relayOn (state_of (exec c s)) = last (relay (state_of (exec c s))) false.
Proof.
  intros Hs.
  destruct c as [tn ts te | t | | | | r1 r2]; simpl; try exact Hs.
  - destruct (update_effects tn ts te s)
      as [[_ ->] | [(_ & _ & _ & ->) | [(_ & _ & Hoff & _ & sr & Hr & ->)
                                       | (_ & _ & Hoff & _ & sg & Hsg & ->)]]];
      simpl.
    + exact Hs.
    + rewrite last_last. reflexivity.
    + pose proof (sample_gain_sensor te s) as (_ & _ & Hsame).
      rewrite Hr in Hsame. simpl in Hsame.
      destruct Hsame as (_ & _ & _ & _ & _ & _ & _ & Hron & _ & _ & Hrel & _).
      rewrite Hron, Hrel. exact Hs.
    + destruct (switch_relay_effects tn ts te s sg Hoff Hsg) as (_ & Hbr & _).
      destruct Hbr as [H | [H | [H | H]]].
      * destruct H as (_ & _ & -> & -> & _). rewrite last_last. reflexivity.
      * destruct H as (_ & _ & _ & -> & -> & _). rewrite <- Hs. exact (eq_sym Hoff).
      * destruct H as (_ & _ & _ & _ & -> & -> & _). rewrite last_last. reflexivity.
      * destruct H as (_ & _ & _ & -> & -> & _). rewrite last_last. reflexivity.
  - rewrite last_last. reflexivity.
  - unfold at_temperature.
    destruct (Qle_bool 29.5 r1); [destruct (Qle_bool r2 30.5) |]; exact Hs.
Qed.

(** X1. After any sequence of calls on a fresh object, [relayOn] is the
    last command sent to the relay ([False] when none was sent yet). *)
Theorem relayOn_is_last_relay_command (t0 : Q) (cs : list call) :
  let s := exec_all cs (init t0) in
  relayOn s = last (relay s) false.
Proof.
  simpl. generalize (init t0) (eq_refl : relayOn (init t0) = last (relay (init t0)) false).
  induction cs as [| c cs IH]; intros s Hs; simpl; [exact Hs |].
  apply IH, exec_relayOn_last, Hs.
Qed.

Lemma snoc_not_self {A : Type} (l : list A) (x : A) : l <> l ++ [x].
Proof.
  intros H. apply (f_equal (@length A)) in H.
  rewrite length_app in H. simpl in H. lia.
Qed.

Lemma on_twice_snoc (l : list bool) (b : bool) :
  on_twice_in_a_row (l ++ [b]) ->
  on_twice_in_a_row l \/ (b = true /\ last l false = true).
Proof.
  intros (l1 & l2 & H).
  induction l2 as [| x l2 _] using rev_ind.
  - right. change (l1 ++ [true; true]) with (l1 ++ [true] ++ [true]) in H.
    rewrite app_assoc in H. apply app_inj_tail in H as [-> ->].
    rewrite last_last. auto.
  - left.
    change (l1 ++ true :: true :: l2 ++ [x])
      with (l1 ++ (true :: true :: l2) ++ [x]) in H.
    rewrite app_assoc in H. apply app_inj_tail in H as [-> _].
    exists l1, l2. reflexivity.
Qed.

(** What one call can add to the relay log. *)
Lemma exec_relay_step (c : call) (s : Temperature_Control) :
  let s' := state_of (exec c s) in
  relay s' = relay s \/ relay s' = relay s ++ [false] \/
  (relay s' = relay s ++ [true] /\ relayOn s = false).
Proof.
  destruct c as [tn ts te | t | | | | r1 r2]; simpl; auto.
  - destruct (update_effects tn ts te s)
      as [[_ ->] | [(_ & _ & _ & ->) | [(_ & _ & Hoff & _ & sr & Hr & ->)
                                       | (_ & _ & Hoff & _ & sg & Hsg & ->)]]];
      simpl; auto.
    + pose proof (sample_gain_sensor te s) as (_ & _ & Hsame).
      rewrite Hr in Hsame. simpl in Hsame.
      destruct Hsame as (_ & _ & _ & _ & _ & _ & _ & _ & _ & _ & Hrel & _).
      auto.
    + destruct (switch_relay_effects tn ts te s sg Hoff Hsg) as (_ & Hbr & _).
      destruct Hbr as [H | [H | [H | H]]].
      * destruct H as (_ & _ & _ & -> & _). auto.
      * destruct H as (_ & _ & _ & _ & -> & _). auto.
      * destruct H as (_ & _ & _ & _ & _ & -> & _). auto.
      * destruct H as (_ & _ & _ & _ & -> & _). auto.
  - unfold at_temperature.
    destruct (Qle_bool 29.5 r1); [destruct (Qle_bool r2 30.5) |]; auto.
Qed.

(** X2. On a fresh object no sequence of calls ever sends [on] to the
    relay twice in a row: between two [on] commands there is always an
    [off] command. *)
Theorem relay_never_on_twice_in_a_row (t0 : Q) (cs : list call) :
  ~ on_twice_in_a_row (relay (exec_all cs (init t0))).
Proof.
  assert (Hgen : forall cs s,
             relayOn s = last (relay s) false ->
             ~ on_twice_in_a_row (relay s) ->
             ~ on_twice_in_a_row (relay (exec_all cs s))).
  { clear cs. induction cs as [| c cs IH]; intros s Hlast Hs; simpl; [exact Hs |].
    apply IH; [apply exec_relayOn_last, Hlast |].
    destruct (exec_relay_step c s) as [-> | [-> | [-> Hoff]]]; [exact Hs | |];
      intros H; apply on_twice_snoc in H as [H | [Hb Hl]];
      try (apply Hs, H); [discriminate | congruence]. }
  apply Hgen; [reflexivity |].
  intros (l1 & l2 & H). simpl in H. destruct l1; discriminate.
Qed.

(** X3. A call of [update] sends [on] to the relay exactly when the
    controller is active, the test [timeNow >= timeNext] holds, the relay
    is off, the gain computation returns, the test
    [temperature < setPoint] holds and the test [k <= 0] on the computed
    gain fails: of the three branches below the set point only the first
    one leaves the relay alone. *)
Theorem update_switches_on_iff
    (timeNow timeSet temperature : Q) (s : Temperature_Control) :
  relay (state_of (update timeNow timeSet temperature s)) = relay s ++ [true]
  <->
  controlActive s = true /\ Qle_bool (timeNext s) timeNow = true /\
  relayOn s = false /\
  exists sg,
    sample_gain temperature s = Ok sg /\
    Qlt_bool temperature (setPoint s) = true /\
    Qle_bool (k sg) 0 = false.
Proof.
  split.
  - destruct (update_effects timeNow timeSet temperature s)
      as [[_ ->] | [(_ & _ & _ & ->) | [(_ & _ & Hoff & _ & sr & Hr & ->)
                                       | (Hact & Hdue & Hoff & _ & sg & Hsg & ->)]]];
      simpl; intros H.
    + exfalso. exact (snoc_not_self _ _ H).
    + apply app_inv_head in H. discriminate.
    + pose proof (sample_gain_sensor temperature s) as (_ & _ & Hsame).
      rewrite Hr in Hsame. simpl in Hsame.
      destruct Hsame as (_ & _ & _ & _ & _ & _ & _ & _ & _ & _ & Hrel & _).
      rewrite Hrel in H. exfalso. exact (snoc_not_self _ _ H).
    + apply Qle_bool_iff in Hdue.
      destruct (switch_relay_effects timeNow timeSet temperature s sg Hoff Hsg)
        as (_ & Hbr & _).
      destruct Hbr as [Hb | [Hb | [Hb | Hb]]].
      * destruct Hb as (_ & _ & _ & Hrel & _). rewrite Hrel in H.
        apply app_inv_head in H. discriminate.
      * destruct Hb as (_ & _ & _ & _ & Hrel & _). rewrite Hrel in H.
        exfalso. exact (snoc_not_self _ _ H).
      * destruct Hb as (Hcold & Hpos & _). repeat split; try assumption.
        exists sg. split; [exact Hsg |].
        split; [apply Qlt_bool_iff, Hcold | apply Qle_bool_false_iff, Hpos].
      * destruct Hb as (Hcold & Hone & _). repeat split; try assumption.
        exists sg. split; [exact Hsg |].
        split; [apply Qlt_bool_iff, Hcold | apply Qle_bool_false_iff; lra].
  - intros (Hact & Hdue & Hoff & sg & Hsg & Hcold & Hpos).
    apply Qle_bool_iff in Hdue. apply Qlt_bool_iff in Hcold.
    apply Qle_bool_false_iff in Hpos.
    rewrite (update_relay_off_due _ _ _ _ _ Hact Hoff Hdue Hsg). simpl.
    destruct (switch_relay_effects timeNow timeSet temperature s sg Hoff Hsg)
      as (_ & Hbr & _).
    destruct Hbr as [Hb | [Hb | [Hb | Hb]]].
    + destruct Hb as (Hhot & _). exfalso. lra.
    + destruct Hb as (_ & Hneg & _). exfalso. lra.
    + destruct Hb as (_ & _ & _ & _ & _ & Hrel & _). exact Hrel.
    + destruct Hb as (_ & _ & _ & _ & Hrel & _). exact Hrel.
Qed.

(** ** Whole heating cycles *)

Lemma update_close_effects
    (timeNow timeSet temperature : Q) (s : Temperature_Control) :
  controlActive s = true ->
  relayOn s = true ->
  timeNext s <= timeNow ->
  exists s',
    update timeNow timeSet temperature s = Ok s' /\
    relayOn s' = false /\ relay s' = relay s ++ [false] /\
    stepCount s' = (stepCount s + 1)%Z /\
    error_prior s' = error s /\ integral_prior s' = integral s /\
    timeNext s' = timeSet + timeStep s * (1 - k s) /\
    k s' = k s /\ timeStep s' = timeStep s /\
    controlActive s' = true /\ sensor_reads s' = sensor_reads s /\
    df s' = df s /\ temperatureLast s' = temperatureLast s /\
    console s' = console s.
Proof.
  intros Hact Hon Hdue.
  destruct (update_cases timeNow timeSet temperature s)
    as [[Hidle _] | [(_ & _ & _ & Hup) | (_ & _ & Hoff & _)]].
  - destruct Hidle as [H | H]; [congruence |].
    exfalso. apply (Qlt_not_le _ _ H), Hdue.
  - eexists. split; [exact Hup |]. simpl. rewrite Hact.
    repeat split; reflexivity.
  - congruence.
Qed.

Lemma sample_gain_values (temperature : Q) (s sg : Temperature_Control) :
  sample_gain temperature s = Ok sg ->
  error sg = setPoint s - temperature /\
  integral sg = integral_prior s + (setPoint s - temperature) * timeStep s.
Proof.
  intros Hsg. destruct (sample_gain_ok_inv _ _ _ Hsg) as (Hnz & _).
  destruct (sample_gain_ok temperature s Hnz) as (sg' & Hsg' & He & Hi & _).
  rewrite Hsg' in Hsg. injection Hsg as <-. auto.
Qed.

(** X4. A proportioned cycle.  When a due relay-off tick below the set
    point computes a gain strictly between 0 and 1, it switches the relay
    on, keeps that gain, sets the next action time [timeStep * k] after
    the clock value it reads and leaves the priors alone; the tick that
    closes this on-phase counts one step, commits as priors the error and
    the integral of that earlier sample, and sets the next action time
    [timeStep * (1 - k)] after the clock value it reads, with the same
    [k]. *)
Theorem proportioned_cycle_commits_sample_at_close
    (timeNow timeSet temperature timeNow' timeSet' temperature' : Q)
    (s sg : Temperature_Control) :
  controlActive s = true ->
  relayOn s = false ->
  timeNext s <= timeNow ->
  temperature < setPoint s ->
  sample_gain temperature s = Ok sg ->
  0 < k sg -> k sg < 1 ->
  exists s1,
    update timeNow timeSet temperature s = Ok s1 /\
    relayOn s1 = true /\ k s1 = k sg /\
    timeNext s1 = timeSet + timeStep s * k sg /\
    error_prior s1 = error_prior s /\ integral_prior s1 = integral_prior s /\
    (timeNext s1 <= timeNow' ->
     exists s2,
       update timeNow' timeSet' temperature' s1 = Ok s2 /\
       relayOn s2 = false /\
       stepCount s2 = (stepCount s + 1)%Z /\
       error_prior s2 = setPoint s - temperature /\
       integral_prior s2
         = integral_prior s + (setPoint s - temperature) * timeStep s /\
       k s2 = k sg /\
       timeNext s2 = timeSet' + timeStep s * (1 - k sg)).
Proof.
  intros Hact Hoff Hdue Hcold Hsg Hpos Hlt.
  rewrite (update_relay_off_due _ _ _ _ _ Hact Hoff Hdue Hsg).
  destruct (sample_gain_values _ _ _ Hsg) as [He Hi].
  pose proof (switch_relay_effects timeNow timeSet temperature s sg Hoff Hsg)
    as Heff.
  cbv zeta in Heff.
  generalize dependent (switch_relay timeNow timeSet temperature sg).
  intros s1 (Hsam & Hbr & He1 & Hi1 & _).
  destruct Hsam as (Hstep & Hstp & _ & Hca & _).
  destruct Hbr as [Hb | [Hb | [Hb | Hb]]];
    [destruct Hb as (Hhot & _); exfalso; lra
    | destruct Hb as (_ & Hneg & _); exfalso; lra
    |
    | destruct Hb as (_ & Hone & _); exfalso; lra].
  destruct Hb as (_ & _ & _ & Hk1 & Hon1 & _ & Htn1 & Hep1 & Hip1).
  exists s1. repeat split; try assumption.
  intros Hdue'.
  assert (Hact1 : controlActive s1 = true) by congruence.
  destruct (update_close_effects timeNow' timeSet' temperature' s1
              Hact1 Hon1 Hdue')
    as (s2 & Hup & Hoff2 & _ & Hstep2 & Hep2 & Hip2 & Htn2 & Hk2 & _).
  exists s2. split; [exact Hup |]. split; [exact Hoff2 |].
  split; [congruence |]. split; [congruence |]. split; [congruence |].
  split; [congruence |].
  rewrite Htn2, Hstp, Hk1. reflexivity.
Qed.

Lemma proportioned_cycle_commits_sample_at_close_witness :
  let s := after_first_cycle in
  let sg := state_of (sample_gain 25 s) in
  exists s1,
    update 1 1.5 25 s = Ok s1 /\
    relayOn s1 = true /\ k s1 = k sg /\
    timeNext s1 = 1.5 + timeStep s * k sg /\
    error_prior s1 = error_prior s /\ integral_prior s1 = integral_prior s /\
    (timeNext s1 <= 2 ->
     exists s2,
       update 2 2.25 26 s1 = Ok s2 /\
       relayOn s2 = false /\
       stepCount s2 = (stepCount s + 1)%Z /\
       error_prior s2 = setPoint s - 25 /\
       integral_prior s2 = integral_prior s + (setPoint s - 25) * timeStep s /\
       k s2 = k sg /\
       timeNext s2 = 2.25 + timeStep s * (1 - k sg)).
Proof.
  apply (proportioned_cycle_commits_sample_at_close 1 1.5 25 2 2.25 26
           after_first_cycle (state_of (sample_gain 25 after_first_cycle)));
    vm_compute; (reflexivity || discriminate).
Defined.

(** X5. A saturated cycle.  When a due relay-off tick below the set point
    computes a gain of at least 1, it stores [k = 1] and switches the
    relay on for a whole [timeStep]; the tick that closes this on-phase
    then schedules the next action with no wait at all, so that any later
    tick is due at once and samples the sensor again. *)
Theorem saturated_cycle_has_no_off_wait
    (timeNow timeSet temperature timeNow' timeSet' temperature' : Q)
    (s sg : Temperature_Control) :
  controlActive s = true ->
  relayOn s = false ->
  timeNext s <= timeNow ->
  temperature < setPoint s ->
  sample_gain temperature s = Ok sg ->
  1 <= k sg ->
  exists s1,
    update timeNow timeSet temperature s = Ok s1 /\
    relayOn s1 = true /\ k s1 = 1 /\
    timeNext s1 = timeSet + timeStep s /\
    (timeNext s1 <= timeNow' ->
     exists s2,
       update timeNow' timeSet' temperature' s1 = Ok s2 /\
       relayOn s2 = false /\
       stepCount s2 = (stepCount s + 1)%Z /\
       timeNext s2 == timeSet' /\
       forall timeNow'' timeSet'' temperature'',
         timeSet' <= timeNow'' ->
         sensor_reads
           (state_of (update timeNow'' timeSet'' temperature'' s2))
         = S (sensor_reads s2)).
Proof.
  intros Hact Hoff Hdue Hcold Hsg Hone.
  rewrite (update_relay_off_due _ _ _ _ _ Hact Hoff Hdue Hsg).
  pose proof (switch_relay_effects timeNow timeSet temperature s sg Hoff Hsg)
    as Heff.
  cbv zeta in Heff.
  generalize dependent (switch_relay timeNow timeSet temperature sg).
  intros s1 (Hsam & Hbr & _).
  destruct Hsam as (Hstep & Hstp & _ & Hca & _).
  destruct Hbr as [Hb | [Hb | [Hb | Hb]]];
    [destruct Hb as (Hhot & _); exfalso; lra
    | destruct Hb as (_ & Hneg & _); exfalso; lra
    | destruct Hb as (_ & _ & Hlt & _); exfalso; lra
    |].
  destruct Hb as (_ & _ & Hk1 & Hon1 & _ & Htn1 & _).
  exists s1. repeat split; try assumption.
  intros Hdue'.
  assert (Hact1 : controlActive s1 = true) by congruence.
  destruct (update_close_effects timeNow' timeSet' temperature' s1
              Hact1 Hon1 Hdue')
    as (s2 & Hup & Hoff2 & _ & Hstep2 & _ & _ & Htn2 & _ & _ & Hact2 & _).
  exists s2. split; [exact Hup |]. split; [exact Hoff2 |].
  split; [congruence |].
  assert (Hzero : timeNext s2 == timeSet') by (rewrite Htn2, Hk1; ring).
  split; [exact Hzero |].
  intros tn ts te Hlater.
  assert (Hdue2 : timeNext s2 <= tn) by (rewrite Hzero; exact Hlater).
  destruct (update_cases tn ts te s2)
    as [[Hidle _] | [(_ & _ & Hon & _) | (_ & _ & _ & Hup2)]].
  - destruct Hidle as [H | H]; [congruence |].
    exfalso. apply (Qlt_not_le _ _ H), Hdue2.
  - congruence.
  - rewrite Hup2.
    pose proof (sample_gain_sensor te s2) as (_ & Hreads & _).
    destruct (sample_gain te s2) as [sg2 | e sr]; simpl in *; [| exact Hreads].
    pose proof (switch_relay_frame tn ts te sg2) as _.
    unfold switch_relay.
    destruct (Qlt_bool te (setPoint sg2));
      [destruct (Qle_bool (k sg2) 0); [| destruct (Qlt_bool (k sg2) 1)] |];
      simpl; destruct (printData sg2); simpl; exact Hreads.
Qed.

Lemma saturated_cycle_has_no_off_wait_witness :
  let s := activate 0 (init 0) in
  exists s1,
    update 0 0.5 25 s = Ok s1 /\
    relayOn s1 = true /\ k s1 = 1 /\
    timeNext s1 = 0.5 + timeStep s /\
    (timeNext s1 <= 1.5 ->
     exists s2,
       update 1.5 2 25 s1 = Ok s2 /\
       relayOn s2 = false /\
       stepCount s2 = (stepCount s + 1)%Z /\
       timeNext s2 == 2 /\
       forall timeNow'' timeSet'' temperature'',
         2 <= timeNow'' ->
         sensor_reads
           (state_of (update timeNow'' timeSet'' temperature'' s2))
         = S (sensor_reads s2)).
Proof.
  apply (saturated_cycle_has_no_off_wait 0 0.5 25 1.5 2 25
           (activate 0 (init 0))
           (state_of (sample_gain 25 (activate 0 (init 0)))));
    vm_compute; (reflexivity || discriminate).
Defined.

(** ** Division by zero inside [update] *)

(** X6. When the controller is active, the tick is due, the relay is
    off and [timeStep] is zero, [update] (once the sensor has returned
    its value) raises [ZeroDivisionError] at the division of
    [__update_gains].  At that point the sensor has been read and
    [temperatureLast] and [error] written; [derivative] and [k] keep
    their old values, no relay command is sent, no line is logged, and
    the step count and the next action time stay as they were, so every
    later tick raises in the same way. *)
Theorem update_zero_time_step_raises
    (timeNow timeSet temperature : Q) (s : Temperature_Control) :
  controlActive s = true ->
  timeNext s <= timeNow ->
  relayOn s = false ->
  timeStep s == 0 ->
  exists sr,
    update timeNow timeSet temperature s = Raise ZeroDivisionError sr /\
    temperatureLast sr = temperature /\
    sensor_reads sr = S (sensor_reads s) /\
    error sr = setPoint s - temperature /\
    derivative sr = derivative s /\ k sr = k s /\
    relay sr = relay s /\ relayOn sr = false /\ df sr = df s /\
    stepCount sr = stepCount s /\ timeNext sr = timeNext s /\
    forall timeNow' timeSet' temperature',
      timeNow <= timeNow' ->
      exists sr',
        update timeNow' timeSet' temperature' sr = Raise ZeroDivisionError sr'.
Proof.
  assert (Hraise : forall tn ts te s0,
             controlActive s0 = true -> timeNext s0 <= tn ->
             relayOn s0 = false -> timeStep s0 == 0 ->
             exists sr,
               sample_gain te s0 = Raise ZeroDivisionError sr /\
               update tn ts te s0 = Raise ZeroDivisionError sr).
  { intros tn ts te s0 Hact Hdue Hoff Hz.
    destruct (update_effects tn ts te s0)
      as [[Hidle _] | [(_ & _ & Hon & _) | [(_ & _ & _ & _ & sr & Hr & Hup)
                                           | (_ & _ & _ & Hnz & _)]]].
    - destruct Hidle as [H | H]; [congruence |].
      exfalso. apply (Qlt_not_le _ _ H), Hdue.
    - congruence.
    - exists sr. auto.
    - contradiction. }
  intros Hact Hdue Hoff Hz.
  destruct (Hraise timeNow timeSet temperature s Hact Hdue Hoff Hz)
    as (sr & Hr & Hup).
  exists sr. split; [exact Hup |].
  pose proof (sample_gain_sensor temperature s) as (Htl & Hreads & Hsame).
  rewrite Hr in Htl, Hreads, Hsame. simpl in Htl, Hreads, Hsame.
  destruct (sample_gain_raise temperature s Hz)
    as (sr' & Hr' & He & _ & Hd & Hk & _).
  rewrite Hr in Hr'. injection Hr' as <-.
  destruct Hsame as (_ & Hca & _ & _ & Hstep & Hstp & Htn & Hron & Hdf
                     & _ & Hrel & _).
  do 10 (split; [congruence |]).
  intros tn' ts' te' Hlater.
  destruct (Hraise tn' ts' te' sr) as (sr2 & _ & Hup2).
  - congruence.
  - rewrite Htn. apply (Qle_trans _ timeNow); assumption.
  - congruence.
  - rewrite Hstp. exact Hz.
  - exists sr2. exact Hup2.
Qed.

Lemma update_zero_time_step_raises_witness :
  let s := set_timeStep 0 (activate 0 (init 0)) in
  exists sr,
    update 1 1 25 s = Raise ZeroDivisionError sr /\
    temperatureLast sr = 25 /\
    sensor_reads sr = S (sensor_reads s) /\
    error sr = setPoint s - 25 /\
    derivative sr = derivative s /\ k sr = k s /\
    relay sr = relay s /\ relayOn sr = false /\ df sr = df s /\
    stepCount sr = stepCount s /\ timeNext sr = timeNext s /\
    forall timeNow' timeSet' temperature',
      1 <= timeNow' ->
      exists sr',
        update timeNow' timeSet' temperature' sr = Raise ZeroDivisionError sr'.
Proof.
  apply (update_zero_time_step_raises 1 1 25
           (set_timeStep 0 (activate 0 (init 0))));
    vm_compute; (reflexivity || discriminate).
Defined.

(** X7. On a fresh object [timeStep] keeps its default 1 through every
    sequence of calls, so no call ever raises [ZeroDivisionError]: the
    division of [__update_gains] never has a zero divisor. *)
Theorem fresh_object_never_divides_by_zero
    (t0 : Q) (cs : list call) (c : call) :
  timeStep (exec_all cs (init t0)) = 1 /\
  forall sr, exec c (exec_all cs (init t0)) <> Raise ZeroDivisionError sr.
Proof.
  assert (Hts : timeStep (exec_all cs (init t0)) = 1)
    by apply exec_all_timeStep.
  split; [exact Hts |]. intros sr.
  destruct c as [tn ts te | t | | | | r1 r2]; simpl; try discriminate.
  destruct (update_effects tn ts te (exec_all cs (init t0)))
    as [[_ Hup] | [(_ & _ & _ & Hup) | [(_ & _ & _ & Hz & _)
                                       | (_ & _ & _ & _ & sg & _ & Hup)]]];
    try (rewrite Hup; discriminate).
  rewrite Hts in Hz. discriminate.
Qed.

(** ** The measurement table *)

(** What one call does to the table, to [temperatureLast] and to the
    count of sensor reads, when [timeStep] is not zero. *)
Lemma exec_log_step (c : call) (s : Temperature_Control) :
  ~ timeStep s == 0 ->
  let s' := state_of (exec c s) in
  (df s' = df s /\ temperatureLast s' = temperatureLast s /\
   (if is_at_temperature c then (sensor_reads s < sensor_reads s')%nat
    else sensor_reads s' = sensor_reads s)) \/
  (exists r,
     df s' = df s ++ [r] /\ duty_cycle (row_gain r) /\
     row_temperature r = temperatureLast s' /\
     sensor_reads s' = S (sensor_reads s) /\ is_at_temperature c = false).
Proof.
  intros Hnz.
  destruct c as [tn ts te | t | | | | r1 r2]; simpl; auto.
  - destruct (update_effects tn ts te s)
      as [[_ ->] | [(_ & _ & _ & ->) | [(_ & _ & _ & Hz & _)
                                       | (_ & _ & Hoff & _ & sg & Hsg & ->)]]];
      simpl; auto; [contradiction |].
    right.
    destruct (switch_relay_effects tn ts te s sg Hoff Hsg) as (Hsam & Hbr & _).
    destruct Hsam as (_ & _ & _ & _ & _ & Htl & Hreads & Hdf & _).
    eexists. split; [exact Hdf |]. simpl.
    split; [| auto].
    unfold duty_cycle.
    destruct Hbr as [H | [H | [H | H]]].
    + destruct H as (_ & -> & _). split; discriminate.
    + destruct H as (_ & _ & -> & _). split; discriminate.
    + destruct H as (_ & Hpos & Hlt & -> & _). split; apply Qlt_le_weak; assumption.
    + destruct H as (_ & _ & -> & _). split; discriminate.
  - left. unfold at_temperature.
    destruct (Qle_bool 29.5 r1); [destruct (Qle_bool r2 30.5) |]; simpl;
      repeat split; lia.
Qed.

Lemma exec_timeStep_nonzero (c : call) (s : Temperature_Control) :
  ~ timeStep s == 0 -> ~ timeStep (state_of (exec c s)) == 0.
Proof. rewrite exec_timeStep. auto. Qed.

(** X8. Every gain logged in the measurement table of a fresh object is
    a duty cycle: it lies between 0 and 1, whatever the raw PID value
    was. *)
Theorem logged_gains_are_duty_cycles (t0 : Q) (cs : list call) :
  Forall (fun r => duty_cycle (row_gain r)) (df (exec_all cs (init t0))).
Proof.
  assert (Hgen : forall cs s,
             ~ timeStep s == 0 ->
             Forall (fun r => duty_cycle (row_gain r)) (df s) ->
             Forall (fun r => duty_cycle (row_gain r)) (df (exec_all cs s))).
  { clear cs. induction cs as [| c cs IH]; intros s Hnz Hs; simpl; [exact Hs |].
    apply IH; [apply exec_timeStep_nonzero, Hnz |].
    destruct (exec_log_step c s Hnz) as [(-> & _) | (r & -> & Hr & _)];
      [exact Hs |].
    apply Forall_app. split; [exact Hs | constructor; [exact Hr | constructor]]. }
  apply Hgen; [discriminate | constructor].
Qed.

(** X10. On a fresh object [get_last_temperature] returns the
    temperature of the last line of the measurement table, and 0 while
    the table is empty. *)
Theorem get_last_temperature_is_last_logged (t0 : Q) (cs : list call) :
  let s := exec_all cs (init t0) in
  get_last_temperature s = last (map row_temperature (df s)) 0.
Proof.
  assert (Hgen : forall cs s,
             ~ timeStep s == 0 ->
             temperatureLast s = last (map row_temperature (df s)) 0 ->
             temperatureLast (exec_all cs s)
             = last (map row_temperature (df (exec_all cs s))) 0).
  { clear cs. induction cs as [| c cs IH]; intros s Hnz Hs; simpl; [exact Hs |].
    apply IH; [apply exec_timeStep_nonzero, Hnz |].
    destruct (exec_log_step c s Hnz) as [(-> & -> & _) | (r & -> & _ & Hr & _)];
      [exact Hs |].
    rewrite map_app. simpl. rewrite last_last. auto. }
  apply Hgen; [discriminate | reflexivity].
Qed.

(** X11. On a fresh object the table never has more lines than the
    sensor was read, and it has exactly one line per sensor read as long
    as [at_temperature] (which reads the sensor without logging) is not
    called. *)
Theorem one_line_per_sensor_read (t0 : Q) (cs : list call) :
  let s := exec_all cs (init t0) in
  (length (df s) <= sensor_reads s)%nat /\
  (existsb is_at_temperature cs = false -> length (df s) = sensor_reads s).
Proof.
  assert (Hgen : forall cs s,
             ~ timeStep s == 0 ->
             ((length (df s) <= sensor_reads s)%nat ->
              (length (df (exec_all cs s)) <= sensor_reads (exec_all cs s))%nat) /\
             (length (df s) = sensor_reads s ->
              existsb is_at_temperature cs = false ->
              length (df (exec_all cs s)) = sensor_reads (exec_all cs s))).
  { clear cs. induction cs as [| c cs IH]; intros s Hnz; simpl; [auto |].
    destruct (IH _ (exec_timeStep_nonzero c s Hnz)) as [IHle IHeq].
    destruct (exec_log_step c s Hnz) as [(Hdf & _ & Hreads) | (r & Hdf & _ & _ & Hreads & Hc)].
    - split.
      + intros Hle. apply IHle. rewrite Hdf.
        destruct (is_at_temperature c); lia.
      + intros Heq Hcs. apply orb_false_iff in Hcs as [Hc Hcs].
        rewrite Hc in Hreads. apply IHeq; [| exact Hcs]. congruence.
    - split.
      + intros Hle. apply IHle. rewrite Hdf, Hreads, length_app. simpl. lia.
      + intros Heq Hcs. apply orb_false_iff in Hcs as [_ Hcs].
        apply IHeq; [| exact Hcs]. rewrite Hdf, Hreads, length_app. simpl. lia. }
  destruct (Hgen cs (init t0)) as [Hle Heq]; [discriminate |].
  split; [apply Hle; simpl; lia | apply Heq; reflexivity].
Qed.

Lemma one_line_per_sensor_read_witness :
  let s := exec_all (Activate 0 :: heat_cycles 3 0) (init 0) in
  length (df s) = sensor_reads s.
Proof.
  apply (proj2 (one_line_per_sensor_read 0 (Activate 0 :: heat_cycles 3 0))).
  vm_compute. reflexivity.
Defined.

(** What one call does to the table and to the console, whether or not
    it raises. *)
Lemma exec_table_step (c : call) (s : Temperature_Control) :
  let s' := state_of (exec c s) in
  (df s' = df s /\ console s' = console s) \/
  (exists r,
     df s' = df s ++ [r] /\
     (console s' = console s \/ console s' = console s ++ [df s'])).
Proof.
  destruct c as [tn ts te | t | | | | r1 r2]; simpl; auto.
  - destruct (update_effects tn ts te s)
      as [[_ ->] | [(_ & _ & _ & ->) | [(_ & _ & _ & _ & sr & Hr & ->)
                                       | (_ & _ & Hoff & _ & sg & Hsg & ->)]]];
      simpl; auto.
    + left. pose proof (sample_gain_sensor te s) as (_ & _ & Hsame).
      rewrite Hr in Hsame. simpl in Hsame.
      destruct Hsame as (_ & _ & _ & _ & _ & _ & _ & _ & Hdf & _ & _ & Hcon).
      auto.
    + right.
      destruct (switch_relay_effects tn ts te s sg Hoff Hsg) as (Hsam & _).
      destruct Hsam as (_ & _ & _ & _ & _ & _ & _ & Hdf & Hcon).
      eexists. split; [exact Hdf |].
      destruct (printData s); auto.
  - left. unfold at_temperature.
    destruct (Qle_bool 29.5 r1); [destruct (Qle_bool r2 30.5) |]; auto.
Qed.

(** X9. The measurement table is append-only: whatever the object and
    the calls, the table afterwards is the table before followed by new
    lines, at most one per call; earlier lines are never changed or
    dropped. *)
Theorem table_is_append_only (cs : list call) (s : Temperature_Control) :
  exists rows,
    df (exec_all cs s) = df s ++ rows /\ (length rows <= length cs)%nat.
Proof.
  revert s. induction cs as [| c cs IH]; intros s; simpl.
  - exists []. rewrite app_nil_r. auto.
  - destruct (IH (state_of (exec c s))) as (rows & Hrows & Hlen).
    destruct (exec_table_step c s) as [(Hdf & _) | (r & Hdf & _)];
      rewrite Hdf in Hrows.
    + exists rows. split; [exact Hrows | lia].
    + exists (r :: rows). rewrite <- app_assoc in Hrows.
      split; [exact Hrows | simpl; lia].
Qed.

(** X13. Each table printed on the console of a fresh object is a
    non-empty beginning of the current table: printing shows the table
    as it was right after a logged sample, and later calls only add
    lines behind it. *)
Theorem printed_tables_are_prefixes (t0 : Q) (cs : list call) :
  let s := exec_all cs (init t0) in
  Forall (fun shown => shown <> [] /\ exists rest, df s = shown ++ rest)
         (console s).
Proof.
  assert (Hgen : forall cs s,
             Forall (fun shown => shown <> [] /\ exists rest, df s = shown ++ rest)
                    (console s) ->
             Forall (fun shown => shown <> [] /\
                                  exists rest, df (exec_all cs s) = shown ++ rest)
                    (console (exec_all cs s))).
  { clear cs. induction cs as [| c cs IH]; intros s Hs; simpl; [exact Hs |].
    apply IH.
    destruct (exec_table_step c s) as [(Hdf & Hcon) | (r & Hdf & Hcon)].
    - rewrite Hdf, Hcon. exact Hs.
    - assert (Hold : Forall (fun shown => shown <> [] /\
                               exists rest,
                                 df (state_of (exec c s)) = shown ++ rest)
                            (console s)).
      { apply (Forall_impl _ (P := fun shown =>
                 shown <> [] /\ exists rest, df s = shown ++ rest));
          [| exact Hs].
        intros shown (Hne & rest & Hrest). split; [exact Hne |].
        exists (rest ++ [r]). rewrite Hdf, Hrest, app_assoc. reflexivity. }
      destruct Hcon as [-> | ->]; [exact Hold |].
      apply Forall_app. split; [exact Hold |].
      constructor; [| constructor].
      split; [rewrite Hdf; intros H; apply app_eq_nil in H as [_ H]; discriminate |].
      exists []. rewrite app_nil_r. reflexivity. }
  apply Hgen. constructor.
Qed.

(** ** Step count and relay log *)

Lemma on_commands_snoc (l : list bool) (b : bool) :
  on_commands (l ++ [b]) = (on_commands l + (if b then 1 else 0))%Z.
Proof.
  unfold on_commands. rewrite count_occ_app. simpl.
  destruct b; simpl; lia.
Qed.

(** What one call does to the relay log, [relayOn] and the step count. *)
Lemma exec_cycle_step (c : call) (s : Temperature_Control) :
  let s' := state_of (exec c s) in
  (relay s' = relay s /\ relayOn s' = relayOn s /\
   stepCount s' = stepCount s) \/
  (relay s' = relay s ++ [false] /\ relayOn s = true /\ relayOn s' = false /\
   stepCount s' = (stepCount s + 1)%Z /\ is_deactivate c = false) \/
  (relay s' = relay s ++ [false] /\ relayOn s' = false /\
   stepCount s' = stepCount s /\
   (relayOn s = false \/ is_deactivate c = true)) \/
  (relay s' = relay s ++ [true] /\ relayOn s = false /\ relayOn s' = true /\
   stepCount s' = stepCount s).
Proof.
  destruct c as [tn ts te | t | | | | r1 r2]; simpl; auto.
  - destruct (update_effects tn ts te s)
      as [[_ ->] | [(_ & _ & Hon & ->) | [(_ & _ & Hoff & _ & sr & Hr & ->)
                                         | (_ & _ & Hoff & _ & sg & Hsg & ->)]]];
      simpl; auto.
    + right; left. auto.
    + left. pose proof (sample_gain_sensor te s) as (_ & _ & Hsame).
      rewrite Hr in Hsame. simpl in Hsame.
      destruct Hsame as (_ & _ & _ & _ & Hstep & _ & _ & Hron & _ & _ & Hrel & _).
      auto.
    + destruct (switch_relay_effects tn ts te s sg Hoff Hsg) as (Hsam & Hbr & _).
      destruct Hsam as (Hstep & _).
      destruct Hbr as [H | [H | [H | H]]].
      * destruct H as (_ & _ & Hron & Hrel & _). right; right; left. auto.
      * destruct H as (_ & _ & _ & Hron & Hrel & _). left.
        repeat split; congruence.
      * destruct H as (_ & _ & _ & _ & Hron & Hrel & _). right; right; right. auto.
      * destruct H as (_ & _ & _ & Hron & Hrel & _). right; right; right. auto.
  - right; right; left. auto.
  - left. unfold at_temperature.
    destruct (Qle_bool 29.5 r1); [destruct (Qle_bool r2 30.5) |]; auto.
Qed.

(** X12. On a fresh object the step count is never negative and counts
    heating phases: together with the phase in progress (if the relay is
    on) it never exceeds the number of [on] commands sent, and it equals
    that number as long as [deactivate] is not called (a phase cut short
    by [deactivate] is not counted). *)
Theorem step_count_counts_heating_phases (t0 : Q) (cs : list call) :
  let s := exec_all cs (init t0) in
  let in_progress := (if relayOn s then 1 else 0)%Z in
  (0 <= stepCount s)%Z /\
  (stepCount s + in_progress <= on_commands (relay s))%Z /\
  (existsb is_deactivate cs = false ->
   (stepCount s + in_progress)%Z = on_commands (relay s)).
Proof.
  assert (Hgen : forall cs s,
             let s' := exec_all cs s in
             ((0 <= stepCount s)%Z -> (0 <= stepCount s')%Z) /\
             ((stepCount s + (if relayOn s then 1 else 0)
               <= on_commands (relay s))%Z ->
              (stepCount s' + (if relayOn s' then 1 else 0)
               <= on_commands (relay s'))%Z) /\
             ((stepCount s + (if relayOn s then 1 else 0))%Z
              = on_commands (relay s) ->
              existsb is_deactivate cs = false ->
              (stepCount s' + (if relayOn s' then 1 else 0))%Z
              = on_commands (relay s'))).
  { clear cs. induction cs as [| c cs IH]; intros s; simpl; [auto |].
    destruct (IH (state_of (exec c s))) as (IH0 & IHle & IHeq).
    destruct (exec_cycle_step c s)
      as [(Hrel & Hron & Hstep) | [(Hrel & Hon & Hron & Hstep & Hc)
         | [(Hrel & Hron & Hstep & Hwhy) | (Hrel & Hoff & Hron & Hstep)]]].
    - split; [| split].
      + intros H. apply IH0. lia.
      + intros H. apply IHle. rewrite Hrel, Hron, Hstep. exact H.
      + intros H Hcs. apply orb_false_iff in Hcs as [_ Hcs].
        apply IHeq; [| exact Hcs]. rewrite Hrel, Hron, Hstep. exact H.
    - split; [| split].
      + intros H. apply IH0. lia.
      + intros H. apply IHle.
        rewrite Hrel, Hron, Hstep, on_commands_snoc. rewrite Hon in H. lia.
      + intros H Hcs. apply orb_false_iff in Hcs as [_ Hcs].
        apply IHeq; [| exact Hcs].
        rewrite Hrel, Hron, Hstep, on_commands_snoc. rewrite Hon in H. lia.
    - split; [| split].
      + intros H. apply IH0. lia.
      + intros H. apply IHle.
        rewrite Hrel, Hron, Hstep, on_commands_snoc.
        destruct (relayOn s); lia.
      + intros H Hcs. apply orb_false_iff in Hcs as [Hc Hcs].
        apply IHeq; [| exact Hcs].
        rewrite Hrel, Hron, Hstep, on_commands_snoc.
        destruct Hwhy as [Hoff | Hd]; [rewrite Hoff in H; lia | congruence].
    - split; [| split].
      + intros H. apply IH0. lia.
      + intros H. apply IHle.
        rewrite Hrel, Hron, Hstep, on_commands_snoc. rewrite Hoff in H. lia.
      + intros H Hcs. apply orb_false_iff in Hcs as [_ Hcs].
        apply IHeq; [| exact Hcs].
        rewrite Hrel, Hron, Hstep, on_commands_snoc. rewrite Hoff in H. lia. }
  destruct (Hgen cs (init t0)) as (H0 & Hle & Heq).
  split; [apply H0; simpl; lia |].
  split; [apply Hle; simpl; unfold on_commands; simpl; lia |].
  apply Heq. reflexivity.
Qed.

Lemma step_count_counts_heating_phases_witness :
  let s := exec_all (Activate 0 :: heat_cycles 3 0 ++ [Update 6 6 25])
             (init 0) in
  (stepCount s + (if relayOn s then 1 else 0))%Z = on_commands (relay s).
Proof.
  apply (proj2 (proj2 (step_count_counts_heating_phases 0
           (Activate 0 :: heat_cycles 3 0 ++ [Update 6 6 25])))).
  vm_compute. reflexivity.
Defined.

(** ** Uncommitted samples *)

(** X14. A relay-off tick below the set point whose gain is not positive
    leaves no trace in the control law: since it commits no priors, the
    gain computation of the next tick gives the same error, integral,
    derivative and gain as if that tick had not taken place. *)
Theorem nonpositive_gain_tick_is_forgotten
    (timeNow timeSet temperature next_temperature : Q)
    (s sg : Temperature_Control) :
  controlActive s = true ->
  relayOn s = false ->
  timeNext s <= timeNow ->
  temperature < setPoint s ->
  sample_gain temperature s = Ok sg ->
  k sg <= 0 ->
  exists s1 g g1,
    update timeNow timeSet temperature s = Ok s1 /\
    sample_gain next_temperature s = Ok g /\
    sample_gain next_temperature s1 = Ok g1 /\
    error g1 = error g /\ integral g1 = integral g /\
    derivative g1 = derivative g /\ k g1 = k g.
Proof.
  intros Hact Hoff Hdue Hcold Hsg Hneg.
  rewrite (update_relay_off_due _ _ _ _ _ Hact Hoff Hdue Hsg).
  destruct (sample_gain_ok_inv _ _ _ Hsg) as (Hnz & _).
  destruct (sample_gain_ok temperature s Hnz)
    as (sg' & Hsg' & _ & _ & _ & _ & Hpsg & _).
  rewrite Hsg' in Hsg. injection Hsg as ->.
  pose proof (switch_relay_effects timeNow timeSet temperature s sg Hoff Hsg')
    as Heff.
  cbv zeta in Heff.
  generalize dependent (switch_relay timeNow timeSet temperature sg).
  intros s1 (Hsam & Hbr & _ & _ & _ & Hp1).
  destruct Hsam as (Hstep & Hstp & Hsp & _).
  destruct Hbr as [Hb | [Hb | [Hb | Hb]]];
    [destruct Hb as (Hhot & _); exfalso; lra
    |
    | destruct Hb as (_ & Hpos & _); exfalso; lra
    | destruct Hb as (_ & Hone & _); exfalso; lra].
  destruct Hb as (_ & _ & _ & _ & _ & _ & Hep & Hip).
  assert (Hnz1 : ~ timeStep s1 == 0) by (rewrite Hstp; exact Hnz).
  destruct (sample_gain_ok next_temperature s Hnz)
    as (g & Hg & He & Hi & Hd & Hk & Hpg & _).
  destruct (sample_gain_ok next_temperature s1 Hnz1)
    as (g1 & Hg1 & He1 & Hi1 & Hd1 & Hk1 & Hpg1 & _).
  exists s1, g, g1. split; [reflexivity |]. split; [exact Hg |].
  split; [exact Hg1 |].
  assert (Hpar : params g1 = params g).
  { rewrite Hpg1, Hpg, Hstep.
    destruct (stepCount s =? 250)%Z eqn:E; [reflexivity |].
    rewrite Hp1, Hpsg; try rewrite E; reflexivity. }
  unfold params in Hpar. injection Hpar as Hkp HTi HTd.
  assert (Hee : error g1 = error g) by (rewrite He1, He, Hsp; reflexivity).
  assert (Hii : integral g1 = integral g)
    by (rewrite Hi1, Hi, Hsp, Hip, Hstp; reflexivity).
  assert (Hdd : derivative g1 = derivative g)
    by (rewrite Hd1, Hd, Hsp, Hep, Hstp; reflexivity).
  repeat split; try assumption.
  rewrite Hk1, Hk, Hkp, HTi, HTd, Hee, Hii, Hdd. reflexivity.
Qed.

Lemma nonpositive_gain_tick_is_forgotten_witness :
  exists s1 g g1,
    update 1 1.5 29.9 after_first_cycle = Ok s1 /\
    sample_gain 27 after_first_cycle = Ok g /\
    sample_gain 27 s1 = Ok g1 /\
    error g1 = error g /\ integral g1 = integral g /\
    derivative g1 = derivative g /\ k g1 = k g.
Proof.
  apply (nonpositive_gain_tick_is_forgotten 1 1.5 29.9 27 after_first_cycle
           (state_of (sample_gain 29.9 after_first_cycle)));
    vm_compute; (reflexivity || discriminate).
Defined.

(** ** [activate] and [deactivate] *)

Lemma ticks_inactive (l : list (Q * Q * Q)) (s : Temperature_Control) :
  controlActive s = false -> exec_all (ticks l) s = s.
Proof.
  intros Hoff. induction l as [| [[tn ts] te] l IH]; simpl; [reflexivity |].
  rewrite (update_idle tn ts te s (or_introl Hoff)). exact IH.
Qed.

(** X15. [deactivate] sends [off] to the relay whatever its state,
    clears [controlActive] and [relayOn], and keeps the step count, the
    PID values, the next action time and the table; after it, no number
    of [update] calls changes anything, whatever the clock and the sensor
    say. *)
Theorem deactivate_stops_control
    (s : Temperature_Control) (l : list (Q * Q * Q)) :
  let s' := deactivate s in
  relay s' = relay s ++ [false] /\
  controlActive s' = false /\ relayOn s' = false /\
  stepCount s' = stepCount s /\ k s' = k s /\
  error_prior s' = error_prior s /\ integral_prior s' = integral_prior s /\
  timeNext s' = timeNext s /\ df s' = df s /\
  exec_all (ticks l) s' = s'.
Proof.
  simpl. repeat split. apply ticks_inactive. reflexivity.
Qed.

(** X16. [activate] sends nothing to the relay and keeps [relayOn] and
    the step count, and it makes the next tick due: a call of [update]
    at any clock value from the activation time on is not idle.  If the
    relay was on, that tick closes the on-phase at once and counts a
    step; if it was off, that tick reads the sensor. *)
Theorem activate_makes_next_tick_due
    (now timeNow timeSet temperature : Q) (s : Temperature_Control) :
  now <= timeNow ->
  let s1 := activate now s in
  let s2 := state_of (update timeNow timeSet temperature s1) in
  relay s1 = relay s /\ relayOn s1 = relayOn s /\
  stepCount s1 = stepCount s /\ params s1 = default_params /\
  ~ idle timeNow s1 /\
  (relayOn s = true ->
   stepCount s2 = (stepCount s + 1)%Z /\ relay s2 = relay s ++ [false]) /\
  (relayOn s = false -> sensor_reads s2 = S (sensor_reads s)).
Proof.
  intros Hnow s1 s2.
  assert (Hact : controlActive s1 = true) by reflexivity.
  assert (Hdue : timeNext s1 <= timeNow) by exact Hnow.
  assert (Hnot : ~ idle timeNow s1).
  { intros [H | H]; [discriminate |]. apply (Qlt_not_le _ _ H), Hdue. }
  do 4 (split; [reflexivity |]). split; [exact Hnot |].
  split.
  - intros Hon.
    destruct (update_close_effects timeNow timeSet temperature s1 Hact Hon Hdue)
      as (s' & Hup & _ & Hrel & Hstep & _).
    unfold s2. rewrite Hup. simpl. auto.
  - intros Hoff. unfold s2.
    destruct (update_effects timeNow timeSet temperature s1)
      as [[Hidle _] | [(_ & _ & Hon & _) | [(_ & _ & _ & _ & sr & Hr & ->)
                                           | (_ & _ & _ & _ & sg & Hsg & ->)]]].
    + contradiction.
    + change (relayOn s1) with (relayOn s) in Hon. congruence.
    + pose proof (sample_gain_sensor temperature s1) as (_ & Hreads & _).
      rewrite Hr in Hreads. exact Hreads.
    + destruct (switch_relay_effects timeNow timeSet temperature s1 sg Hoff Hsg)
        as (Hsam & _).
      destruct Hsam as (_ & _ & _ & _ & _ & _ & Hreads & _). exact Hreads.
Qed.

Lemma activate_makes_next_tick_due_witness :
  let s := exec_all [Activate 0; Update 0 0 25] (init 0) in
  let s1 := activate 0.5 s in
  let s2 := state_of (update 0.5 0.5 25 s1) in
  relay s1 = relay s /\ relayOn s1 = relayOn s /\
  stepCount s1 = stepCount s /\ params s1 = default_params /\
  ~ idle 0.5 s1 /\
  (relayOn s = true ->
   stepCount s2 = (stepCount s + 1)%Z /\ relay s2 = relay s ++ [false]) /\
  (relayOn s = false -> sensor_reads s2 = S (sensor_reads s)).
Proof.
  apply (activate_makes_next_tick_due 0.5 0.5 0.5 25
           (exec_all [Activate 0; Update 0 0 25] (init 0))).
  vm_compute. discriminate.
Defined.

(** ** Scheduling bounds *)

(** X17. On a fresh object every due tick sets the next action time
    no earlier than the clock value read at that moment and no later
    than one [timeStep] (that is, 1) after it, whichever branch it
    takes. *)
Theorem next_action_within_one_time_step
    (t0 : Q) (cs : list call) (timeNow timeSet temperature : Q) :
  let s := exec_all cs (init t0) in
  controlActive s = true ->
  timeNext s <= timeNow ->
  exists s',
    update timeNow timeSet temperature s = Ok s' /\
    timeSet <= timeNext s' /\ timeNext s' <= timeSet + 1.
Proof.
  intros s Hact Hdue.
  assert (Hts : timeStep s = 1) by apply exec_all_timeStep.
  assert (Hfit : gain_fits_relay s).
  { apply exec_all_gain_fits_relay. intros Hon. discriminate. }
  destruct (update_effects timeNow timeSet temperature s)
    as [[Hidle _] | [(_ & _ & Hon & _) | [(_ & _ & _ & Hz & _)
                                         | (_ & _ & Hoff & _ & sg & Hsg & Hup)]]].
  - exfalso. destruct Hidle as [H | H]; [congruence |].
    apply (Qlt_not_le _ _ H), Hdue.
  - destruct (update_close_effects timeNow timeSet temperature s Hact Hon Hdue)
      as (s' & Hup & _ & _ & _ & _ & _ & Htn & _).
    destruct (Hfit Hon) as [Hpos Hle].
    exists s'. split; [exact Hup |]. rewrite Htn, Hts.
    split; lra.
  - rewrite Hts in Hz. discriminate.
  - pose proof (switch_relay_effects timeNow timeSet temperature s sg Hoff Hsg)
      as Heff.
    cbv zeta in Heff. rewrite Hup.
    generalize dependent (switch_relay timeNow timeSet temperature sg).
    intros s' _ (_ & Hbr & _).
    exists s'. split; [reflexivity |].
    destruct Hbr as [H | [H | [H | H]]].
    + destruct H as (_ & _ & _ & _ & -> & _). rewrite Hts. split; lra.
    + destruct H as (_ & _ & _ & _ & _ & -> & _). rewrite Hts. split; lra.
    + destruct H as (_ & Hpos & Hlt & _ & _ & _ & -> & _). rewrite Hts.
      split; lra.
    + destruct H as (_ & _ & _ & _ & _ & -> & _). rewrite Hts. split; lra.
Qed.

Lemma next_action_within_one_time_step_witness :
  let s := exec_all [Activate 0] (init 0) in
  exists s',
    update 3 3.5 25 s = Ok s' /\
    3.5 <= timeNext s' /\ timeNext s' <= 3.5 + 1.
Proof.
  apply (next_action_within_one_time_step 0 [Activate 0] 3 3.5 25);
    vm_compute; (reflexivity || discriminate).
Defined.
